(** * Panel Splitter: grid planning, unit conversion, mark placement and
      the per-tile clipping loop, embedded from the TypeScript sources.

    JavaScript numbers are embedded as exact rationals ([Q]): the layout
    arithmetic of the sources (subtraction, multiplication, division,
    [Math.min], [Math.max], [Math.ceil]) is read over the rationals, without
    IEEE-754 rounding, NaN or infinities.  Loop counters and grid indices are
    natural numbers. *)

From Stdlib Require Import ZArith QArith Qround Qminmax List String Ascii Bool.
From Stdlib Require Import Lia Lqa Decimal DecimalNat DecimalString.
Import ListNotations.

Local Open Scope Q_scope.

(** ** Outcome of a call that may throw *)

Inductive result (A : Type) : Type :=
| Ok (a : A)
| Throw (msg : string).
Arguments Ok {A} a.
Arguments Throw {A} msg.

(** ** types.ts *)

Inductive UnitMode := auto | px96 | px72.
Inductive ExportMode := laser_safe | fast_clip.
Inductive NumberingFormat := R01C01 | F01_01 | Tile_001.
Inductive RegistrationMarkType := crosshair | pinhole | lmark.
Inductive MarkPlacement := inside | overlap_band.

Record RegistrationMarkSettings := {
  enabled : bool;
  markType : RegistrationMarkType;
  placement : MarkPlacement;
  size : Q;
  strokeWidth : Q;
  holeDiameter : Q
}.

Record AssemblyMapSettings := {
  mapEnabled : bool;
  includeLabels : bool;
  includeThumbnails : bool
}.

Record Settings := {
  bedWidth : Q;
  bedHeight : Q;
  margin : Q;
  overlap : Q;
  exportMode : ExportMode;
  numberingEnabled : bool;
  numberingFormat : NumberingFormat;
  startIndexAtOne : bool;
  guidesEnabled : bool;
  expandStrokes : bool;
  simplifyTolerance : Q;
  exportEmptyTiles : bool;
  unitMode : UnitMode;
  registrationMarks : RegistrationMarkSettings;
  assemblyMap : AssemblyMapSettings
}.

Record TileInfo := {
  row : nat;
  col : nat;
  tileId : string;
  label : string;
  x : Q;
  y : Q;
  width : Q;
  height : Q;
  isEmpty : bool;
  hasUnsafeFallback : bool;
  svgContent : option string
}.

Record GridInfo := {
  rows : Z;
  cols : Z;
  tileWidth : Q;
  tileHeight : Q;
  effectiveTileWidth : Q;
  effectiveTileHeight : Q;
  tiles : list TileInfo
}.

(** ** grid.ts *)

(** [String(n)] for a non-negative integer: its decimal digits. *)
Definition numToString (n : nat) : string :=
  NilEmpty.string_of_uint (Nat.to_uint n).

(** [s.padStart(n, c)] with a one-character pad string. *)
Definition padStart (s : string) (n : nat) (c : ascii) : string :=
  (string_of_list_ascii (repeat c (n - String.length s)) ++ s)%string.

Definition formatTileLabel (row col : nat) (format : NumberingFormat)
    (index : nat) (startAtOne : bool) : string :=
  let offset := if startAtOne then 1%nat else 0%nat in
  let r := padStart (numToString (row + offset)) 2 "0" in
  let c := padStart (numToString (col + offset)) 2 "0" in
  let i := padStart (numToString (index + offset)) 3 "0" in
  match format with
  | R01C01 => ("R" ++ r ++ "C" ++ c)%string
  | F01_01 => (r ++ "-" ++ c)%string
  | Tile_001 => ("Tile_" ++ i)%string
  end.

(** The geometry the loop body of [computeGrid] derives from the settings. *)
Record GridGeom := {
  g_designWidth : Q;
  g_designHeight : Q;
  g_effW : Q;
  g_effH : Q;
  g_stepX : Q;
  g_stepY : Q;
  g_format : NumberingFormat;
  g_startAtOne : bool
}.

Definition natQ (n : nat) : Q := inject_Z (Z.of_nat n).

(** Body of the inner loop: the tile pushed for ([row], [col]) when the running
    counter is [index]. *)
Definition mkTile (G : GridGeom) (row col index : nat) : TileInfo :=
  let x := natQ col * g_stepX G in
  let y := natQ row * g_stepY G in
  let tileWidth := Qmin (g_effW G) (g_designWidth G - x) in
  let tileHeight := Qmin (g_effH G) (g_designHeight G - y) in
  {| row := row;
     col := col;
     tileId := ("tile-" ++ numToString row ++ "-" ++ numToString col)%string;
     label := formatTileLabel row col (g_format G) index (g_startAtOne G);
     x := x;
     y := y;
     width := tileWidth;
     height := tileHeight;
     isEmpty := false;
     hasUnsafeFallback := false;
     svgContent := None |}.

(** The two nested [for] loops, with the state ([tiles], [index]) threaded
    through the iterations. *)
Definition colLoop (G : GridGeom) (cols row : nat)
    (st : list TileInfo * nat) : list TileInfo * nat :=
  fold_left
    (fun st col => (fst st ++ [mkTile G row col (snd st)], S (snd st)))
    (seq 0 cols) st.

Definition rowLoop (G : GridGeom) (rows cols : nat) : list TileInfo * nat :=
  fold_left (fun st row => colLoop G cols row st) (seq 0 rows) ([], 0%nat).

(** Row-major description of the tile sequence, against which the loops are
    checked ([rowLoop_spec]). *)
Definition rowTiles (G : GridGeom) (cols row : nat) : list TileInfo :=
  map (fun c => mkTile G row c (row * cols + c)) (seq 0 cols).

Definition gridTiles (G : GridGeom) (rows cols : nat) : list TileInfo :=
  flat_map (rowTiles G cols) (seq 0 rows).

Definition gridGeom (designWidthMm designHeightMm : Q) (s : Settings) : GridGeom :=
  let effectiveTileWidth := bedWidth s - 2 * margin s in
  let effectiveTileHeight := bedHeight s - 2 * margin s in
  {| g_designWidth := designWidthMm;
     g_designHeight := designHeightMm;
     g_effW := effectiveTileWidth;
     g_effH := effectiveTileHeight;
     g_stepX := effectiveTileWidth - overlap s;
     g_stepY := effectiveTileHeight - overlap s;
     g_format := numberingFormat s;
     g_startAtOne := startIndexAtOne s |}.

(** The number of cells along one axis: [D] is the design size, [e] the
    effective tile size and [o] the overlap. *)
Definition axisCount (D e o : Q) : Z := Z.max 1 (Qceiling ((D - o) / (e - o))).

(** [a <= 0] on numbers, as a boolean. *)
Definition Qnonpos (a : Q) : bool := Qle_bool a 0.

Definition computeGrid (designWidthMm designHeightMm : Q) (settings : Settings)
    : result GridInfo :=
  let effectiveTileWidth := bedWidth settings - 2 * margin settings in
  let effectiveTileHeight := bedHeight settings - 2 * margin settings in
  if Qnonpos effectiveTileWidth || Qnonpos effectiveTileHeight then
    Throw "Effective tile size is zero or negative. Reduce margin or increase bed size."
  else
    let stepX := effectiveTileWidth - overlap settings in
    let stepY := effectiveTileHeight - overlap settings in
    if Qnonpos stepX || Qnonpos stepY then
      Throw "Overlap is too large for the effective tile size."
    else
      let cols := Z.max 1 (Qceiling ((designWidthMm - overlap settings) / stepX)) in
      let rows := Z.max 1 (Qceiling ((designHeightMm - overlap settings) / stepY)) in
      let G := gridGeom designWidthMm designHeightMm settings in
      Ok {| rows := rows;
            cols := cols;
            tileWidth := bedWidth settings;
            tileHeight := bedHeight settings;
            effectiveTileWidth := effectiveTileWidth;
            effectiveTileHeight := effectiveTileHeight;
            tiles := fst (rowLoop G (Z.to_nat rows) (Z.to_nat cols)) |}.

(** Default settings of App.tsx. *)
Definition DEFAULT_SETTINGS : Settings :=
  {| bedWidth := 300; bedHeight := 200; margin := 5; overlap := 0;
     exportMode := laser_safe; numberingEnabled := true;
     numberingFormat := R01C01; startIndexAtOne := true;
     guidesEnabled := false; expandStrokes := false;
     simplifyTolerance := 0; exportEmptyTiles := false; unitMode := auto;
     registrationMarks :=
       {| enabled := false; markType := crosshair; placement := inside;
          size := 6; strokeWidth := 2 # 10; holeDiameter := 2 |};
     assemblyMap :=
       {| mapEnabled := true; includeLabels := true;
          includeThumbnails := false |} |}.

(** ** parser.ts *)

Definition lowerAscii (c : ascii) : ascii :=
  let n := nat_of_ascii c in
  if (65 <=? n)%nat && (n <=? 90)%nat then ascii_of_nat (n + 32) else c.

(** [s.toLowerCase()] on the ASCII letters. *)
Fixpoint toLowerCase (s : string) : string :=
  match s with
  | EmptyString => EmptyString
  | String c r => String (lowerAscii c) (toLowerCase r)
  end.

Definition mmPerInch : Q := 254 # 10.

(** The table [UNIT_TO_MM]; [None] is a key the object literal does not have.
    Keys the object inherits from its prototype (["constructor"], ...) are
    not modelled: there the product is not a number, under every mode. *)
Definition UNIT_TO_MM (unit : string) : option Q :=
  if (unit =? "mm")%string then Some 1
  else if (unit =? "cm")%string then Some 10
  else if (unit =? "in")%string then Some mmPerInch
  else if (unit =? "pt")%string then Some (mmPerInch / 72)
  else if (unit =? "pc")%string then Some (mmPerInch / 6)
  else if (unit =? "px")%string then Some (mmPerInch / 96)
  else None.

Definition UNIT_TO_MM_px : Q := mmPerInch / 96.

Definition isPx96 (m : UnitMode) : bool :=
  match m with px96 => true | _ => false end.
Definition isPx72 (m : UnitMode) : bool :=
  match m with px72 => true | _ => false end.

Definition convertToMm (value : Q) (unit : string) (unitMode : UnitMode) : Q :=
  if isPx96 unitMode && (unit =? "px")%string then value * (mmPerInch / 96)
  else if isPx72 unitMode && (unit =? "px")%string then value * (mmPerInch / 72)
  else
    let factor :=
      match UNIT_TO_MM (toLowerCase unit) with
      | Some f => f
      | None => UNIT_TO_MM_px
      end in
    value * factor.

(** ** marks.ts *)

Record MarkPosition := { mark_x : Q; mark_y : Q }.

Definition Qpos (a : Q) : bool := negb (Qle_bool a 0).

Definition generateMarkPositions (gridInfo : GridInfo) (settings : Settings)
    (_tileRow _tileCol : nat) : list MarkPosition :=
  let margin := margin settings in
  let registrationMarks := registrationMarks settings in
  let effectiveTileWidth := effectiveTileWidth gridInfo in
  let effectiveTileHeight := effectiveTileHeight gridInfo in
  if negb (enabled registrationMarks) then []
  else
    let markSize := size registrationMarks in
    let offset := markSize / 2 + 1 in
    match placement registrationMarks with
    | inside =>
        [ {| mark_x := margin + offset; mark_y := margin + offset |};
          {| mark_x := margin + effectiveTileWidth - offset;
             mark_y := margin + offset |};
          {| mark_x := margin + offset;
             mark_y := margin + effectiveTileHeight - offset |};
          {| mark_x := margin + effectiveTileWidth - offset;
             mark_y := margin + effectiveTileHeight - offset |} ]
    | overlap_band =>
        let overlapOffset :=
          if Qpos (overlap settings) then overlap settings / 2 else offset in
        [ {| mark_x := margin - overlapOffset; mark_y := margin - overlapOffset |};
          {| mark_x := margin + effectiveTileWidth + overlapOffset;
             mark_y := margin - overlapOffset |};
          {| mark_x := margin - overlapOffset;
             mark_y := margin + effectiveTileHeight + overlapOffset |};
          {| mark_x := margin + effectiveTileWidth + overlapOffset;
             mark_y := margin + effectiveTileHeight + overlapOffset |} ]
    end.

(** ** The paper.js scene graph, as far as tiler.ts uses it

    Items are values: [clone] is the identity and an operation of the library
    returns the item it produces.  What the library computes (bounding boxes,
    boolean operations, import) is an interface; a boolean operation may
    throw. *)

Module paper.

Record Point := { px : Q; py : Q }.

Record Rectangle := { x : Q; y : Q; width : Q; height : Q }.

Record Style := {
  fillColor : option string;
  strokeColor : option string;
  strokeWidth : Q;
  strokeCap : string;
  strokeJoin : string;
  dashArray : list Q;
  dashOffset : Q;
  opacity : Q;
  clipMask : bool
}.

#[warnings="-register-all"]
Inductive Item :=
| Path (segments : list Point) (closed : bool) (style : Style)
| CompoundPath (children : list Item) (style : Style)
| Group (children : list Item)
| Layer (children : list Item)
| Other (style : Style).

Definition defaultStyle : Style :=
  {| fillColor := None; strokeColor := None; strokeWidth := 1;
     strokeCap := "butt"; strokeJoin := "miter"; dashArray := [];
     dashOffset := 0; opacity := 1; clipMask := false |}.

Definition styleOf (it : Item) : Style :=
  match it with
  | Path _ _ st | CompoundPath _ st | Other st => st
  | Group _ | Layer _ => defaultStyle
  end.

Definition withStyle (f : Style -> Style) (it : Item) : Item :=
  match it with
  | Path segs cl st => Path segs cl (f st)
  | CompoundPath ch st => CompoundPath ch (f st)
  | Other st => Other (f st)
  | Group _ | Layer _ => it
  end.

Definition isPathItem (it : Item) : bool :=
  match it with
  | Path _ _ _ | CompoundPath _ _ => true
  | _ => false
  end.

(** [new paper.Path.Rectangle(rect)] and [new paper.Path.Line(from, to)]. *)
Definition PathRectangle (r : Rectangle) : Item :=
  Path [ {| px := x r; py := y r + height r |};
         {| px := x r; py := y r |};
         {| px := x r + width r; py := y r |};
         {| px := x r + width r; py := y r + height r |} ]
       true defaultStyle.

Definition PathLine (from to : Point) : Item :=
  Path [from; to] false defaultStyle.

(** [item.clone()]. *)
Definition clone (it : Item) : Item := it.

(** The operations of the library the tiler calls. *)
Class Engine := {
  importSVG : string -> option Item;
  boundsIntersects : Item -> Rectangle -> bool;
  intersect : Item -> Item -> result (option Item);
  unite : Item -> Item -> result Item;
  translate : Item -> Point -> Item;
  simplify : Item -> Q -> Item
}.

End paper.

(** ** tiler.ts *)

Record ViewBox := { vb_x : Q; vb_y : Q; vb_width : Q; vb_height : Q }.

Record SVGInfo := {
  fileName : string;
  originalContent : string;
  viewBox : option ViewBox;
  svgWidth : option Q;
  svgHeight : option Q;
  widthUnit : string;
  heightUnit : string;
  detectedWidthMm : Q;
  detectedHeightMm : Q
}.

Record TileResult := { res_tile : TileInfo; res_svgContent : string }.

(** In-place updates of a tile object. *)
Definition setIsEmpty (b : bool) (t : TileInfo) : TileInfo :=
  {| row := row t; col := col t; tileId := tileId t; label := label t;
     x := x t; y := y t; width := width t; height := height t;
     isEmpty := b; hasUnsafeFallback := hasUnsafeFallback t;
     svgContent := svgContent t |}.

Definition setHasUnsafeFallback (b : bool) (t : TileInfo) : TileInfo :=
  {| row := row t; col := col t; tileId := tileId t; label := label t;
     x := x t; y := y t; width := width t; height := height t;
     isEmpty := isEmpty t; hasUnsafeFallback := b;
     svgContent := svgContent t |}.

(** The copy [{ ...tile, svgContent }]. *)
Definition withSvgContent (s : string) (t : TileInfo) : TileInfo :=
  {| row := row t; col := col t; tileId := tileId t; label := label t;
     x := x t; y := y t; width := width t; height := height t;
     isEmpty := isEmpty t; hasUnsafeFallback := hasUnsafeFallback t;
     svgContent := Some s |}.

(** [a ?? b]. *)
Definition orElse {A : Type} (o : option A) (d : A) : A :=
  match o with Some a => a | None => d end.

Fixpoint getAllPaths (it : paper.Item) : list paper.Item :=
  match it with
  | paper.Path _ _ _ | paper.CompoundPath _ _ => [it]
  | paper.Group ch | paper.Layer ch => flat_map getAllPaths ch
  | paper.Other _ => []
  end.

Fixpoint isEmptyPath (item : paper.Item) : bool :=
  match item with
  | paper.Path segments _ _ => (List.length segments =? 0)%nat
  | paper.CompoundPath children _ =>
      (List.length children =? 0)%nat || forallb isEmptyPath children
  | _ => false
  end.

Definition copyStyles (source target : paper.Item) : paper.Item :=
  if paper.isPathItem source && paper.isPathItem target then
    let s := paper.styleOf source in
    paper.withStyle
      (fun t =>
         {| paper.fillColor := paper.fillColor s;
            paper.strokeColor := paper.strokeColor s;
            paper.strokeWidth := paper.strokeWidth s;
            paper.strokeCap := paper.strokeCap s;
            paper.strokeJoin := paper.strokeJoin s;
            paper.dashArray := paper.dashArray s;
            paper.dashOffset := paper.dashOffset s;
            paper.opacity := paper.opacity s;
            paper.clipMask := paper.clipMask t |})
      target
  else target.

(** What a truthy, non-empty intersection result is kept as. *)
Definition keptResult (intersected : option paper.Item) : option paper.Item :=
  match intersected with
  | Some it => if negb (isEmptyPath it) then Some it else None
  | None => None
  end.

Section Tiler.
Context {E : paper.Engine}.

(** The loop of [intersectPath] over the children of a compound path; the
    first child whose intersection throws ends it. *)
Fixpoint intersectChildren (children : list paper.Item) (clipRect : paper.Item)
    (results : list paper.Item) : result (list paper.Item) :=
  match children with
  | [] => Ok results
  | child :: rest =>
      match paper.intersect child clipRect with
      | Throw msg => Throw msg
      | Ok intersected =>
          match keptResult intersected with
          | Some it => intersectChildren rest clipRect (results ++ [it])
          | None => intersectChildren rest clipRect results
          end
      end
  end.

Definition intersectPath (path clipRect : paper.Item) : result (option paper.Item) :=
  match path with
  | paper.CompoundPath children _ =>
      match intersectChildren children clipRect [] with
      | Throw msg => Throw msg
      | Ok [] => Ok None
      | Ok [r] => Ok (Some r)
      | Ok results => Ok (Some (paper.CompoundPath results paper.defaultStyle))
      end
  | _ => paper.intersect path clipRect
  end.

(** [PaperOffset.offset] returns a clone on both of its branches. *)
Definition PaperOffset_offset (path : paper.Item) (_distance : Q) : option paper.Item :=
  Some (paper.clone path).

Definition expandStroke (path : paper.Item) : option paper.Item :=
  match path with
  | paper.Path _ _ st =>
      let strokeWidth := paper.strokeWidth st in
      if Qnonpos strokeWidth then None
      else
        match PaperOffset_offset path (strokeWidth / 2),
              PaperOffset_offset path (- strokeWidth / 2) with
        | Some offset1, Some offset2 =>
            match paper.unite offset1 offset2 with
            | Ok result =>
                Some (paper.withStyle
                        (fun t =>
                           {| paper.fillColor := paper.strokeColor st;
                              paper.strokeColor := None;
                              paper.strokeWidth := paper.strokeWidth t;
                              paper.strokeCap := paper.strokeCap t;
                              paper.strokeJoin := paper.strokeJoin t;
                              paper.dashArray := paper.dashArray t;
                              paper.dashOffset := paper.dashOffset t;
                              paper.opacity := paper.opacity t;
                              paper.clipMask := paper.clipMask t |})
                        result)
            | Throw _ => None
            end
        | _, _ => None
        end
  | _ => None
  end.

Definition hasStroke (st : paper.Style) : bool :=
  match paper.strokeColor st with
  | Some _ => Qpos (paper.strokeWidth st)
  | None => false
  end.

(** A path of the tree, replaced by its expansion when there is one. *)
Fixpoint expandItem (it : paper.Item) : paper.Item :=
  match it with
  | paper.Path _ _ st | paper.CompoundPath _ st =>
      if hasStroke st then orElse (expandStroke it) it else it
  | paper.Group ch => paper.Group (map expandItem ch)
  | paper.Layer ch => paper.Layer (map expandItem ch)
  | paper.Other _ => it
  end.

(** [expandAllStrokes(item)], as seen through the caller's reference [item]:
    paths below it are replaced in place; when [item] is itself a path,
    [replaceWith] swaps it in the scene and the reference keeps the original. *)
Definition expandAllStrokes (item : paper.Item) : paper.Item :=
  match item with
  | paper.Group ch => paper.Group (map expandItem ch)
  | paper.Layer ch => paper.Layer (map expandItem ch)
  | _ => item
  end.

(** [simplifyPaths(item, tolerance)]: every simple path found by [getAllPaths]
    is simplified in place. *)
Fixpoint simplifyPaths (item : paper.Item) (tolerance : Q) : paper.Item :=
  match item with
  | paper.Path _ _ _ => paper.simplify item tolerance
  | paper.Group ch => paper.Group (map (fun c => simplifyPaths c tolerance) ch)
  | paper.Layer ch => paper.Layer (map (fun c => simplifyPaths c tolerance) ch)
  | _ => item
  end.

End Tiler.

Definition guideStyle (scaleX : Q) : paper.Style :=
  {| paper.fillColor := None; paper.strokeColor := Some "red"%string;
     paper.strokeWidth := (1 # 10) / scaleX;
     paper.strokeCap := "butt"; paper.strokeJoin := "miter";
     paper.dashArray := []; paper.dashOffset := 0; paper.opacity := 1;
     paper.clipMask := false |}.

(** The items [addGuides] inserts in the scene: the border rectangle, then a
    horizontal and a vertical stroke per corner. *)
Definition addGuides (gridInfo : GridInfo) (settings : Settings)
    (scaleX scaleY : Q) : list paper.Item :=
  let margin := margin settings in
  let effectiveTileWidth := effectiveTileWidth gridInfo in
  let effectiveTileHeight := effectiveTileHeight gridInfo in
  let red := paper.withStyle (fun _ => guideStyle scaleX) in
  let borderRect :=
    red (paper.PathRectangle
           {| paper.x := margin / scaleX; paper.y := margin / scaleY;
              paper.width := effectiveTileWidth / scaleX;
              paper.height := effectiveTileHeight / scaleY |}) in
  let crossSize := 5 / scaleX in
  let corners :=
    [ {| paper.px := margin / scaleX; paper.py := margin / scaleY |};
      {| paper.px := (margin + effectiveTileWidth) / scaleX;
         paper.py := margin / scaleY |};
      {| paper.px := margin / scaleX;
         paper.py := (margin + effectiveTileHeight) / scaleY |};
      {| paper.px := (margin + effectiveTileWidth) / scaleX;
         paper.py := (margin + effectiveTileHeight) / scaleY |} ] in
  borderRect ::
  flat_map
    (fun corner =>
       [ red (paper.PathLine
                {| paper.px := paper.px corner - crossSize; paper.py := paper.py corner |}
                {| paper.px := paper.px corner + crossSize; paper.py := paper.py corner |});
         red (paper.PathLine
                {| paper.px := paper.px corner; paper.py := paper.py corner - crossSize |}
                {| paper.px := paper.px corner; paper.py := paper.py corner + crossSize |}) ])
    corners.

(** The text [exportTileSVG] serialises the scene to (paper.js export, DOM
    attribute edits, registration-mark markup) is an interface. *)
Class Exporter := {
  exportTileSVG : list paper.Item -> GridInfo -> Settings -> nat -> nat -> string
}.

(** State of the trimming loop: [trimmedItems], [hasContent],
    [hasUnsafeFallback]. *)
Record TrimState := {
  trimmedItems : list paper.Item;
  hasContent : bool;
  hasUnsafeFallback_ : bool
}.

(** What a call of [processSingleTile] leaves behind: the tile object after
    its in-place updates, the content of the scene, and the returned value
    ([None] is [null]). *)
Record TileRun := {
  run_tile : TileInfo;
  run_project : list paper.Item;
  run_result : option TileResult
}.

Section SingleTile.
Context {E : paper.Engine} {X : Exporter}.

(** One iteration of [for (const path of allPaths)]. *)
Definition trimStep (tileRectInSvg : paper.Rectangle) (clipRect : paper.Item)
    (st : TrimState) (path : paper.Item) : TrimState :=
  if negb (paper.boundsIntersects path tileRectInSvg) then st
  else
    match intersectPath path clipRect with
    | Ok intersected =>
        match keptResult intersected with
        | Some it =>
            {| trimmedItems := trimmedItems st ++ [copyStyles path it];
               hasContent := true;
               hasUnsafeFallback_ := hasUnsafeFallback_ st |}
        | None => st
        end
    | Throw _ =>
        if paper.boundsIntersects path tileRectInSvg then
          {| trimmedItems := trimmedItems st ++ [paper.clone path];
             hasContent := true;
             hasUnsafeFallback_ := true |}
        else st
    end.

Definition trimLoop (tileRectInSvg : paper.Rectangle) (clipRect : paper.Item)
    (allPaths : list paper.Item) : TrimState :=
  fold_left (trimStep tileRectInSvg clipRect) allPaths
    {| trimmedItems := []; hasContent := false; hasUnsafeFallback_ := false |}.

Definition designScaleX (svgInfo : SVGInfo) : Q :=
  detectedWidthMm svgInfo /
  orElse (option_map vb_width (viewBox svgInfo))
         (orElse (svgWidth svgInfo) (detectedWidthMm svgInfo)).

Definition designScaleY (svgInfo : SVGInfo) : Q :=
  detectedHeightMm svgInfo /
  orElse (option_map vb_height (viewBox svgInfo))
         (orElse (svgHeight svgInfo) (detectedHeightMm svgInfo)).

Definition tileRectInSvg (svgInfo : SVGInfo) (tile : TileInfo)
    (gridInfo : GridInfo) : paper.Rectangle :=
  {| paper.x := x tile / designScaleX svgInfo
                + orElse (option_map vb_x (viewBox svgInfo)) 0;
     paper.y := y tile / designScaleY svgInfo
                + orElse (option_map vb_y (viewBox svgInfo)) 0;
     paper.width := effectiveTileWidth gridInfo / designScaleX svgInfo;
     paper.height := effectiveTileHeight gridInfo / designScaleY svgInfo |}.

(** The translation both modes apply to their group. *)
Definition tileOffset (svgInfo : SVGInfo) (rect : paper.Rectangle)
    (settings : Settings) : paper.Point :=
  {| paper.px := - paper.x rect + margin settings / designScaleX svgInfo;
     paper.py := - paper.y rect + margin settings / designScaleY svgInfo |}.

(** The tail of [processSingleTile], from [tile.isEmpty = !hasContent] on. *)
Definition finishTile (tile : TileInfo) (gridInfo : GridInfo) (settings : Settings)
    (hasContent hasUnsafeFallback : bool) (project : list paper.Item) : TileRun :=
  let tile := setHasUnsafeFallback hasUnsafeFallback
                (setIsEmpty (negb hasContent) tile) in
  if negb hasContent && negb (exportEmptyTiles settings) then
    {| run_tile := tile; run_project := project; run_result := None |}
  else
    let svgContent := exportTileSVG project gridInfo settings (row tile) (col tile) in
    {| run_tile := tile;
       run_project := project;
       run_result := Some {| res_tile := withSvgContent svgContent tile;
                             res_svgContent := svgContent |} |}.

Definition processSingleTile (svgInfo : SVGInfo) (tile : TileInfo)
    (gridInfo : GridInfo) (settings : Settings) : TileRun :=
  let rect := tileRectInSvg svgInfo tile gridInfo in
  match paper.importSVG (originalContent svgInfo) with
  | None =>
      {| run_tile := setIsEmpty true tile; run_project := []; run_result := None |}
  | Some importedItem =>
      let importedItem :=
        if expandStrokes settings then expandAllStrokes importedItem
        else importedItem in
      let guides :=
        if guidesEnabled settings then
          addGuides gridInfo settings (designScaleX svgInfo) (designScaleY svgInfo)
        else [] in
      match exportMode settings with
      | laser_safe =>
          let clipRect := paper.PathRectangle rect in
          let st := trimLoop rect clipRect (getAllPaths importedItem) in
          if negb (hasContent st) && negb (exportEmptyTiles settings) then
            {| run_tile := setIsEmpty true tile; run_project := [];
               run_result := None |}
          else
            let tile := if negb (hasContent st) then setIsEmpty true tile else tile in
            let group :=
              paper.translate (paper.Group (trimmedItems st))
                (tileOffset svgInfo rect settings) in
            let group :=
              if Qpos (simplifyTolerance settings) then
                simplifyPaths group (simplifyTolerance settings / designScaleX svgInfo)
              else group in
            finishTile tile gridInfo settings (hasContent st)
              (hasUnsafeFallback_ st) (group :: guides)
      | fast_clip =>
          let clipRect :=
            paper.withStyle
              (fun t =>
                 {| paper.fillColor := paper.fillColor t;
                    paper.strokeColor := paper.strokeColor t;
                    paper.strokeWidth := paper.strokeWidth t;
                    paper.strokeCap := paper.strokeCap t;
                    paper.strokeJoin := paper.strokeJoin t;
                    paper.dashArray := paper.dashArray t;
                    paper.dashOffset := paper.dashOffset t;
                    paper.opacity := paper.opacity t;
                    paper.clipMask := true |})
              (paper.PathRectangle rect) in
          let clipGroup :=
            paper.translate (paper.Group [clipRect; importedItem])
              (tileOffset svgInfo rect settings) in
          finishTile tile gridInfo settings true false (clipGroup :: guides)
      end
  end.

End SingleTile.

(** State of the batch loop.  [b_host] is the state of the host the callbacks
    read and write; [b_tiles] are the tile objects of [gridInfo.tiles] visited
    so far, with the updates [processSingleTile] made to them in place;
    [b_results] is the local array [results]. *)
Record Batch (Host : Type) := {
  b_host : Host;
  b_tiles : list TileInfo;
  b_results : list TileResult
}.
Arguments b_host {Host} _.
Arguments b_tiles {Host} _.
Arguments b_results {Host} _.

(** What the caller of [processTiles] observes when the promise settles: the
    host state, the tile objects of the grid, and either the returned array or
    the error thrown. *)
Record BatchEnd (Host : Type) := {
  end_host : Host;
  end_tiles : list TileInfo;
  end_outcome : result (list TileResult)
}.
Arguments end_host {Host} _.
Arguments end_tiles {Host} _.
Arguments end_outcome {Host} _.

Section Batch.
Context {E : paper.Engine} {X : Exporter}.
Context {Host : Type}.
Variable svgInfo : SVGInfo.
Variable gridInfo : GridInfo.
Variable settings : Settings.
Variable onProgress : nat -> nat -> Host -> Host.
Variable shouldCancel : Host -> bool.
(** [asyncYield i]: what the host does to its state while the loop is
    suspended in iteration [i]. *)
Variable asyncYield : nat -> Host -> Host.

(** The [for] loop of [processTiles] from iteration [i] on, [todo] being
    [tiles[i..]]. *)
Fixpoint tileLoop (total i : nat) (todo : list TileInfo) (b : Batch Host)
    : BatchEnd Host :=
  match todo with
  | [] =>
      {| end_host := b_host b; end_tiles := b_tiles b;
         end_outcome := Ok (b_results b) |}
  | tile :: rest =>
      if shouldCancel (b_host b) then
        {| end_host := b_host b; end_tiles := b_tiles b ++ todo;
           end_outcome := Throw "Processing cancelled" |}
      else
        let host := onProgress (i + 1)%nat total (b_host b) in
        let run := processSingleTile svgInfo tile gridInfo settings in
        let results :=
          match run_result run with
          | Some result => b_results b ++ [result]
          | None => b_results b
          end in
        let host := if (i mod 2 =? 0)%nat then asyncYield i host else host in
        tileLoop total (S i) rest
          {| b_host := host; b_tiles := b_tiles b ++ [run_tile run];
             b_results := results |}
  end.

Definition processTiles (host : Host) : BatchEnd Host :=
  let tiles := tiles gridInfo in
  let total := List.length tiles in
  tileLoop total 0 tiles {| b_host := host; b_tiles := []; b_results := [] |}.

End Batch.

(** ** App.tsx *)

Inductive Phase := idle | preparing | tiling | exporting | done | cancelled.

Record ProcessingState := {
  isProcessing : bool;
  currentTile : nat;
  totalTiles : nat;
  phase : Phase;
  error : option string
}.

Record ValidationError := { field : string; message : string }.

Definition Qlt10 (a : Q) : bool := negb (Qle_bool 10 a).
Definition Qneg (a : Q) : bool := negb (Qle_bool 0 a).

Definition validateSettings (settings : Settings) : list ValidationError :=
  let effectiveWidth := bedWidth settings - 2 * margin settings in
  let effectiveHeight := bedHeight settings - 2 * margin settings in
  (if Qlt10 (bedWidth settings) then
     [{| field := "bedWidth"; message := "Bed width must be at least 10mm" |}]
   else []) ++
  (if Qlt10 (bedHeight settings) then
     [{| field := "bedHeight"; message := "Bed height must be at least 10mm" |}]
   else []) ++
  (if Qneg (margin settings) then
     [{| field := "margin"; message := "Margin cannot be negative" |}]
   else []) ++
  (if Qneg (overlap settings) then
     [{| field := "overlap"; message := "Overlap cannot be negative" |}]
   else []) ++
  (if Qnonpos effectiveWidth then
     [{| field := "margin"; message := "Margin too large for bed width" |}]
   else []) ++
  (if Qnonpos effectiveHeight then
     [{| field := "margin"; message := "Margin too large for bed height" |}]
   else []) ++
  (if Qle_bool effectiveWidth (overlap settings) then
     [{| field := "overlap";
         message := "Overlap must be less than effective tile width" |}]
   else []) ++
  (if Qle_bool effectiveHeight (overlap settings) then
     [{| field := "overlap";
         message := "Overlap must be less than effective tile height" |}]
   else []).

(** The state of the component that [handleGenerate] and [handleCancel] read
    and write. *)
Record AppState := {
  app_svgInfo : option SVGInfo;
  app_settings : Settings;
  app_gridInfo : option GridInfo;
  app_processedTiles : list TileInfo;
  app_validationErrors : list ValidationError;
  app_processingState : ProcessingState;
  cancelRef : bool
}.

Definition setProcessingState (f : ProcessingState -> ProcessingState)
    (a : AppState) : AppState :=
  {| app_svgInfo := app_svgInfo a; app_settings := app_settings a;
     app_gridInfo := app_gridInfo a;
     app_processedTiles := app_processedTiles a;
     app_validationErrors := app_validationErrors a;
     app_processingState := f (app_processingState a);
     cancelRef := cancelRef a |}.

Definition setCancelRef (b : bool) (a : AppState) : AppState :=
  {| app_svgInfo := app_svgInfo a; app_settings := app_settings a;
     app_gridInfo := app_gridInfo a;
     app_processedTiles := app_processedTiles a;
     app_validationErrors := app_validationErrors a;
     app_processingState := app_processingState a;
     cancelRef := b |}.

Definition setProcessedTiles (ts : list TileInfo) (a : AppState) : AppState :=
  {| app_svgInfo := app_svgInfo a; app_settings := app_settings a;
     app_gridInfo := app_gridInfo a;
     app_processedTiles := ts;
     app_validationErrors := app_validationErrors a;
     app_processingState := app_processingState a;
     cancelRef := cancelRef a |}.

Definition setGridTiles (ts : list TileInfo) (a : AppState) : AppState :=
  {| app_svgInfo := app_svgInfo a; app_settings := app_settings a;
     app_gridInfo :=
       option_map
         (fun g =>
            {| rows := rows g; cols := cols g; tileWidth := tileWidth g;
               tileHeight := tileHeight g;
               effectiveTileWidth := effectiveTileWidth g;
               effectiveTileHeight := effectiveTileHeight g;
               tiles := ts |})
         (app_gridInfo a);
     app_processedTiles := app_processedTiles a;
     app_validationErrors := app_validationErrors a;
     app_processingState := app_processingState a;
     cancelRef := cancelRef a |}.

Definition withPhase (p : Phase) (s : ProcessingState) : ProcessingState :=
  {| isProcessing := isProcessing s; currentTile := currentTile s;
     totalTiles := totalTiles s; phase := p; error := error s |}.

Definition withProgress (current total : nat) (s : ProcessingState)
    : ProcessingState :=
  {| isProcessing := isProcessing s; currentTile := current;
     totalTiles := total; phase := phase s; error := error s |}.

Definition handleCancel (a : AppState) : AppState :=
  setProcessingState (withPhase cancelled) (setCancelRef true a).

Section App.
Context {E : paper.Engine} {X : Exporter}.

(** [handleGenerate], run to the point where the promise of [processTiles] has
    settled and the handler has returned.  [clicks i] tells whether the user
    presses Cancel while the loop is suspended in iteration [i].  The tile
    objects of [gridInfo.tiles] are shared with the loop, so the grid of the
    final state carries their in-place updates. *)
Definition startTiling (gridInfo : GridInfo) (a : AppState) : AppState :=
  let a := setCancelRef false a in
  let a :=
    setProcessingState
      (fun _ => {| isProcessing := true; currentTile := 0;
                   totalTiles := List.length (tiles gridInfo);
                   phase := preparing; error := None |}) a in
  setProcessingState (withPhase tiling) a.

(** The call [processTiles(svgInfo, gridInfo, settings, ...)] of
    [handleGenerate], with its two callbacks. *)
Definition runTiles (clicks : nat -> bool) (svgInfo : SVGInfo)
    (gridInfo : GridInfo) (a : AppState) : BatchEnd AppState :=
  processTiles svgInfo gridInfo (app_settings a)
    (fun current total => setProcessingState (withProgress current total))
    cancelRef
    (fun i s => if clicks i then handleCancel s else s)
    a.

Definition handleGenerate (clicks : nat -> bool) (a : AppState) : AppState :=
  match app_svgInfo a, app_gridInfo a with
  | Some svgInfo, Some gridInfo =>
      if (0 <? List.length (app_validationErrors a))%nat then a
      else
        let a := startTiling gridInfo a in
        let e := runTiles clicks svgInfo gridInfo a in
        let a := setGridTiles (end_tiles e) (end_host e) in
        match end_outcome e with
        | Ok results =>
            let updatedTiles :=
              map (fun tile =>
                     match find (fun r => (tileId (res_tile r) =? tileId tile)%string)
                                results with
                     | Some result => res_tile result
                     | None => setIsEmpty true tile
                     end)
                  (end_tiles e) in
            let a := setProcessedTiles updatedTiles a in
            let a := setGridTiles updatedTiles a in
            setProcessingState
              (fun _ => {| isProcessing := false;
                           currentTile := List.length (tiles gridInfo);
                           totalTiles := List.length (tiles gridInfo);
                           phase := done; error := None |}) a
        | Throw message =>
            setProcessingState
              (fun _ => {| isProcessing := false; currentTile := 0;
                           totalTiles := 0; phase := idle;
                           error := if (message =? "Processing cancelled")%string
                                    then None else Some message |}) a
        end
  | _, _ => a
  end.

End App.

(** ** Reading labels back *)

Definition isDigit (c : ascii) : bool :=
  let n := nat_of_ascii c in (48 <=? n)%nat && (n <=? 57)%nat.

Fixpoint allDigits (s : string) : bool :=
  match s with
  | EmptyString => true
  | String c r => isDigit c && allDigits r
  end.

(** The number a zero-padded decimal string denotes. *)
Definition labelNumber (s : string) : option nat :=
  option_map Nat.of_uint (NilEmpty.uint_of_string s).

Definition zeros (k : nat) : string := string_of_list_ascii (repeat "0"%char k).

(** ** The scenario of the specification: a 600 x 400 design on the
    default bed *)

Definition scenarioGrid : GridInfo :=
  Eval vm_compute in
    match computeGrid 600 400 DEFAULT_SETTINGS with
    | Ok g => g
    | Throw _ =>
        {| rows := 0; cols := 0; tileWidth := 0; tileHeight := 0;
           effectiveTileWidth := 0; effectiveTileHeight := 0; tiles := [] |}
    end.

Definition marksSettings : Settings :=
  {| bedWidth := 300; bedHeight := 200; margin := 5; overlap := 0;
     exportMode := laser_safe; numberingEnabled := true;
     numberingFormat := R01C01; startIndexAtOne := true;
     guidesEnabled := false; expandStrokes := false;
     simplifyTolerance := 0; exportEmptyTiles := false; unitMode := auto;
     registrationMarks :=
       {| enabled := true; markType := crosshair; placement := inside;
          size := 6; strokeWidth := 2 # 10; holeDiameter := 2 |};
     assemblyMap :=
       {| mapEnabled := true; includeLabels := true;
          includeThumbnails := false |} |}.

(** ** A small engine and documents to run the tiler on *)

Definition trianglePath : paper.Item :=
  paper.Path [ {| paper.px := 0; paper.py := 0 |};
               {| paper.px := 40; paper.py := 0 |};
               {| paper.px := 0; paper.py := 40 |} ] true paper.defaultStyle.

Definition openPath : paper.Item :=
  paper.Path [ {| paper.px := 10; paper.py := 10 |};
               {| paper.px := 20; paper.py := 30 |} ] false paper.defaultStyle.

(** A triangle in the far corner of the 600 x 400 design: its bounding box is
    the whole design, and it lies beyond the line from (600, 0) to (0, 400),
    so it has no point in the window [0, 290] x [0, 190] of the first tile. *)
Definition farTriangle : paper.Item :=
  paper.Path [ {| paper.px := 600; paper.py := 0 |};
               {| paper.px := 600; paper.py := 400 |};
               {| paper.px := 0; paper.py := 400 |} ] true paper.defaultStyle.

Definition noSegments : paper.Item := paper.Path [] true paper.defaultStyle.

(** An engine in which every bounding box meets every window, the
    intersection of an open path throws, the intersection of a closed path
    that starts at [x >= 600] is a path without segments, and any other
    closed path is returned as it is. *)
Definition testEngine : paper.Engine :=
  {| paper.importSVG := fun content =>
       if (content =? "throwing")%string then
         Some (paper.Group [trianglePath; openPath; trianglePath])
       else if (content =? "far")%string then
         Some (paper.Group [farTriangle])
       else if (content =? "")%string then None
       else Some (paper.Group [trianglePath]);
     paper.boundsIntersects := fun _ _ => true;
     paper.intersect := fun it _ =>
       match it with
       | paper.Path (p :: _) true _ =>
           if Qle_bool 600 (paper.px p) then Ok (Some noSegments) else Ok (Some it)
       | paper.Path [] true _ => Ok (Some it)
       | paper.Path _ false _ => Throw "boolean operation failed"
       | _ => Ok None
       end;
     paper.unite := fun a _ => Ok a;
     paper.translate := fun it _ => it;
     paper.simplify := fun it _ => it |}.

Definition testExporter : Exporter :=
  {| exportTileSVG := fun _ _ _ _ _ => "<svg/>"%string |}.

Definition testSvg (content : string) : SVGInfo :=
  {| fileName := "design.svg"; originalContent := content;
     viewBox := Some {| vb_x := 0; vb_y := 0; vb_width := 600; vb_height := 400 |};
     svgWidth := Some 600; svgHeight := Some 400;
     widthUnit := "mm"; heightUnit := "mm";
     detectedWidthMm := 600; detectedHeightMm := 400 |}.

Definition firstTile : TileInfo := mkTile (gridGeom 600 400 DEFAULT_SETTINGS) 0 0 0.

Definition fastClipSettings : Settings :=
  {| bedWidth := 300; bedHeight := 200; margin := 5; overlap := 0;
     exportMode := fast_clip; numberingEnabled := true;
     numberingFormat := R01C01; startIndexAtOne := true;
     guidesEnabled := false; expandStrokes := false;
     simplifyTolerance := 0; exportEmptyTiles := false; unitMode := auto;
     registrationMarks :=
       {| enabled := false; markType := crosshair; placement := inside;
          size := 6; strokeWidth := 2 # 10; holeDiameter := 2 |};
     assemblyMap :=
       {| mapEnabled := true; includeLabels := true;
          includeThumbnails := false |} |}.

(** The non-null results, in order. *)
Definition resultsOf (runs : list TileRun) : list TileResult :=
  flat_map (fun run => match run_result run with Some r => [r] | None => [] end) runs.

Definition idleState : ProcessingState :=
  {| isProcessing := false; currentTile := 0; totalTiles := 0;
     phase := idle; error := None |}.

Definition testApp (content : string) : AppState :=
  {| app_svgInfo := Some (testSvg content);
     app_settings := DEFAULT_SETTINGS;
     app_gridInfo := Some scenarioGrid;
     app_processedTiles := [];
     app_validationErrors := [];
     app_processingState := idleState;
     cancelRef := false |}.

(** The user presses Cancel while the loop is suspended after its first
    tile. *)
Definition clickAfterFirst (i : nat) : bool := (i =? 0)%nat.

(** * Document parsing, batch trace, assembly map and preview *)

(** ** parser.ts: [parseUnit], [parseSVG] and [getBaseFileName]

    Texts are ASCII: white space is the six ASCII white-space characters,
    and letter case is that of the ASCII letters. *)

Definition isSpaceChar (c : ascii) : bool :=
  let n := nat_of_ascii c in
  ((9 <=? n)%nat && (n <=? 13)%nat) || (n =? 32)%nat.

(** A character of the class [[\d.]]. *)
Definition isNumChar (c : ascii) : bool := isDigit c || (c =? ".")%char.

(** The longest prefix of characters satisfying [p], and what follows it. *)
Fixpoint spanChars (p : ascii -> bool) (s : string) : string * string :=
  match s with
  | EmptyString => (EmptyString, EmptyString)
  | String c r =>
      if p c then let (a, b) := spanChars p r in (String c a, b)
      else (EmptyString, s)
  end.

Definition dropSpaces (s : string) : string := snd (spanChars isSpaceChar s).

(** The text without the white space at its end. *)
Fixpoint trimEnd (s : string) : string :=
  match s with
  | EmptyString => EmptyString
  | String c r =>
      match trimEnd r with
      | EmptyString => if isSpaceChar c then EmptyString else String c EmptyString
      | r' => String c r'
      end
  end.

(** [s.trim()]. *)
Definition trim (s : string) : string := trimEnd (dropSpaces s).

Definition unitNames : list string :=
  ["mm"; "cm"; "in"; "pt"; "pc"; "px"]%string.

Definition isUnitName (u : string) : bool := existsb (String.eqb u) unitNames.

(** The match of [/^([\d.]+)\s*(mm|cm|in|pt|pc|px)?$/i]: its two groups, the
    second being [None] when the unit is absent. *)
Definition matchLength (s : string) : option (string * option string) :=
  let (digits, rest) := spanChars isNumChar s in
  if (String.length digits =? 0)%nat then None
  else
    let unitText := dropSpaces rest in
    if (String.length unitText =? 0)%nat then Some (digits, None)
    else if isUnitName (toLowerCase unitText) then Some (digits, Some unitText)
    else None.

(** The value of a text of decimal digits. *)
Definition digitsValue (s : string) : nat :=
  match labelNumber s with Some n => n | None => 0%nat end.

(** [parseFloat] on a text of digits and dots: the digits before the first
    dot and those between the first and the second dot; [None] is NaN, which
    is what a text without a digit in those places gives. *)
Definition parseFloatDigits (s : string) : option Q :=
  let (whole, rest) := spanChars isDigit s in
  let frac :=
    match rest with
    | String "." r => fst (spanChars isDigit r)
    | _ => EmptyString
    end in
  if (String.length whole =? 0)%nat && (String.length frac =? 0)%nat then None
  else Some (natQ (digitsValue whole)
             + natQ (digitsValue frac)
               / inject_Z (10 ^ Z.of_nat (String.length frac))).

(** [parseFloat(value) || 0] on a text the pattern rejects is the runtime's
    (signs, exponents, trailing text): an interface. *)
Class TextNumbers := { parseFloatOrZero : string -> Q }.

Record Length := { len_num : Q; len_unit : string }.

Definition parseUnit {T : TextNumbers} (value : string) : Length :=
  match matchLength (trim value) with
  | None => {| len_num := parseFloatOrZero value; len_unit := "px" |}
  | Some (digits, unitText) =>
      {| len_num := orElse (parseFloatDigits digits) 0;
         len_unit := toLowerCase (orElse unitText "px"%string) |}
  end.

(** What [parseSVG] reads from the parsed document: the [<svg>] element, if
    there is one, with its [viewBox] attribute already split into four
    numbers ([None] when it is missing or malformed) and its [width] and
    [height] attributes; and the text of a [<parsererror>] element. *)
Record SvgElement := {
  attr_viewBox : option ViewBox;
  attr_width : option string;
  attr_height : option string
}.

Record Document := {
  doc_svg : option SvgElement;
  doc_parserError : option string
}.

(** An attribute that is present and not empty. *)
Definition truthyAttr (a : option string) : option string :=
  match a with
  | Some EmptyString => None
  | _ => a
  end.

Definition parseSVG {T : TextNumbers} (doc : Document)
    (content fileName : string) (unitMode : UnitMode) : result SVGInfo :=
  match doc_svg doc with
  | None => Throw "Invalid SVG: No <svg> element found"
  | Some svg =>
      match doc_parserError doc with
      | Some text => Throw ("SVG parsing error: " ++ text)
      | None =>
          let viewBox := attr_viewBox svg in
          let widthAttr := truthyAttr (attr_width svg) in
          let heightAttr := truthyAttr (attr_height svg) in
          let width := option_map (fun a => len_num (parseUnit a)) widthAttr in
          let height := option_map (fun a => len_num (parseUnit a)) heightAttr in
          let widthUnit :=
            orElse (option_map (fun a => len_unit (parseUnit a)) widthAttr)
                   "px"%string in
          let heightUnit :=
            orElse (option_map (fun a => len_unit (parseUnit a)) heightAttr)
                   "px"%string in
          let make (w h : Q) : SVGInfo :=
            {| fileName := fileName; originalContent := content;
               viewBox := viewBox; svgWidth := width; svgHeight := height;
               widthUnit := widthUnit; heightUnit := heightUnit;
               detectedWidthMm := w; detectedHeightMm := h |} in
          match width, height with
          | Some w, Some h =>
              Ok (make (convertToMm w widthUnit unitMode)
                       (convertToMm h heightUnit unitMode))
          | _, _ =>
              match viewBox with
              | Some vb =>
                  Ok (make (convertToMm (vb_width vb) "px" unitMode)
                           (convertToMm (vb_height vb) "px" unitMode))
              | None =>
                  Throw "SVG has no width/height or viewBox. Cannot determine dimensions."
              end
          end
      end
  end.

(** [fileName.replace(/\.svg$/i, '')]. *)
Definition getBaseFileName (fileName : string) : string :=
  let n := String.length fileName in
  if (4 <=? n)%nat
     && (toLowerCase (substring (n - 4) 4 fileName) =? ".svg")%string
  then substring 0 (n - 4) fileName
  else fileName.

(** A runtime whose [parseFloat] finds no number in a rejected text. *)
Definition noNumbers : TextNumbers := {| parseFloatOrZero := fun _ => 0 |}.




(** [UNIT_TO_MM] is an object literal, so a lookup by one of the two
    lower-case property names of [Object.prototype] finds the inherited
    property instead of a number; [UNIT_TO_MM] above stands for the lookup by
    any other name. *)
Definition ownKey (unit : string) : bool :=
  negb ((toLowerCase unit =? "constructor")%string
        || (toLowerCase unit =? "__proto__")%string).



(** The plan of a narrower design, 500 x 400, on the default bed. *)
Definition narrowGrid : GridInfo :=
  Eval vm_compute in
    match computeGrid 500 400 DEFAULT_SETTINGS with
    | Ok g => g
    | Throw _ => scenarioGrid
    end.

(** A document with a view box and a width but no height. *)
Definition viewBoxOnly : Document :=
  {| doc_svg := Some {| attr_viewBox :=
                          Some {| vb_x := 0; vb_y := 0;
                                  vb_width := 800; vb_height := 600 |};
                        attr_width := Some "100mm"%string;
                        attr_height := None |};
     doc_parserError := None |}.

Definition viewBoxOnlyInfo : SVGInfo :=
  Eval vm_compute in
    match parseSVG (T := noNumbers) viewBoxOnly "<svg/>" "a.svg" px72 with
    | Ok info => info
    | Throw _ => testSvg ""
    end.

(** Two tile objects that describe the same cell of the grid: everything but
    the flags and the exported text. *)
Definition sameCell (t u : TileInfo) : Prop :=
  row t = row u /\ col t = col u /\ tileId t = tileId u /\ label t = label u /\
  x t = x u /\ y t = y u /\ width t = width u /\ height t = height u.

(** A simple path that [expandAllStrokes] would try to expand. *)
Definition isStrokedPath (it : paper.Item) : bool :=
  match it with
  | paper.Path _ _ st => hasStroke st
  | _ => false
  end.





(** A compound path with a stroke, as the only child of the imported group. *)
Definition strokedCompound : paper.Item :=
  paper.Group
    [ paper.CompoundPath [trianglePath]
        {| paper.fillColor := None; paper.strokeColor := Some "black"%string;
           paper.strokeWidth := 2; paper.strokeCap := "butt";
           paper.strokeJoin := "miter"; paper.dashArray := [];
           paper.dashOffset := 0; paper.opacity := 1;
           paper.clipMask := false |} ].

(** Where an item of the loop's output comes from. *)
Definition trimmedFrom {E : paper.Engine} (rect : paper.Rectangle) (clip : paper.Item)
    (paths : list paper.Item) (it : paper.Item) : Prop :=
  exists p, In p paths /\ paper.boundsIntersects p rect = true /\
    ((exists msg, intersectPath p clip = Throw msg /\ it = p) \/
     (exists r, intersectPath p clip = Ok (Some r) /\
                isEmptyPath r = false /\ it = copyStyles p r)).

(** ** The host along the batch loop *)

Section HostTrace.
Context {Host : Type}.
Variable onProgress : nat -> nat -> Host -> Host.
Variable asyncYield : nat -> Host -> Host.

(** What iteration [i] of the loop of [processTiles] does to the host when it
    is not cancelled: the progress callback, then a yield after an even
    index. *)
Definition iterHost (total i : nat) (h : Host) : Host :=
  let h := onProgress (i + 1)%nat total h in
  if (i mod 2 =? 0)%nat then asyncYield i h else h.

(** The host after the [k] iterations [i], [i + 1], ..., [i + k - 1]. *)
Fixpoint hostAfter (total i k : nat) (h : Host) : Host :=
  match k with
  | O => h
  | S k' => hostAfter total (S i) k' (iterHost total i h)
  end.

End HostTrace.

(** A host that records what the loop does to it. *)
Inductive LoopEvent :=
| Progress (current total : nat)
| Yielded (i : nat).

Definition logProgress (current total : nat) (log : list LoopEvent)
    : list LoopEvent :=
  log ++ [Progress current total].

Definition logYield (i : nat) (log : list LoopEvent) : list LoopEvent :=
  log ++ [Yielded i].

(** The tile a completed run of [handleGenerate] stores for a tile of the
    grid. *)
Definition processedTile {E : paper.Engine} {X : Exporter} (svgInfo : SVGInfo)
    (gridInfo : GridInfo) (settings : Settings) (tile : TileInfo) : TileInfo :=
  let run := processSingleTile svgInfo tile gridInfo settings in
  match run_result run with
  | Some result => res_tile result
  | None => setIsEmpty true (run_tile run)
  end.

(** ** Assembly map: the geometry [generateAssemblyMapSVG] draws

    The markup is text; what is modelled are the numbers it is built from:
    the scale of the map and the rectangle drawn for a tile. *)




(** ** PreviewCanvas: the hit test of [handleClick]

    [px] and [py] are the click in the coordinates of the design,
    [(clientX - rect.left - pan.x) / zoom] and its counterpart. *)




(** * Properties of the grid planner *)

Section GridLoop.
Variable G : GridGeom.

Lemma colLoop_from (row n a : nat) (ts : list TileInfo) (i : nat) :
  fold_left
    (fun st col => (fst st ++ [mkTile G row col (snd st)], S (snd st)))
    (seq a n) (ts, i)
  = (ts ++ map (fun k => mkTile G row (a + k) (i + k)) (seq 0 n), (i + n)%nat).
Proof.
  revert a ts i. induction n as [|n IH]; intros a ts i.
  - cbn. now rewrite app_nil_r, Nat.add_0_r.
  - cbn [seq fold_left fst snd]. rewrite IH.
    rewrite <- app_assoc, <- seq_shift. cbn [List.app map].
    rewrite map_map, !Nat.add_0_r. f_equal; [| lia].
    cbn [List.app]. do 2 f_equal. apply map_ext. intro k.
    now rewrite <- !plus_n_Sm.
Qed.

Lemma colLoop_spec (cols row : nat) (ts : list TileInfo) (i : nat) :
  colLoop G cols row (ts, i)
  = (ts ++ map (fun c => mkTile G row c (i + c)) (seq 0 cols), (i + cols)%nat).
Proof. unfold colLoop. now rewrite colLoop_from. Qed.

Lemma rowLoop_from (cols n a : nat) (ts : list TileInfo) :
  fold_left (fun st row => colLoop G cols row st) (seq a n) (ts, (a * cols)%nat)
  = (ts ++ flat_map (rowTiles G cols) (seq a n), ((a + n) * cols)%nat).
Proof.
  revert a ts. induction n as [|n IH]; intros a ts.
  - cbn. now rewrite app_nil_r, Nat.add_0_r.
  - cbn [seq fold_left flat_map]. rewrite colLoop_spec.
    replace (a * cols + cols)%nat with (S a * cols)%nat by lia.
    rewrite IH, <- app_assoc. f_equal. lia.
Qed.

(** The loops produce the tiles in row-major order, and the running counter of
    cell ([row], [col]) is [row * cols + col]. *)
Lemma rowLoop_spec (rows cols : nat) :
  rowLoop G rows cols = (gridTiles G rows cols, (rows * cols)%nat).
Proof.
  unfold rowLoop. change (@nil TileInfo, 0%nat) with (@nil TileInfo, (0 * cols)%nat).
  now rewrite rowLoop_from.
Qed.

Lemma rowTiles_length (cols row : nat) : List.length (rowTiles G cols row) = cols.
Proof. unfold rowTiles. now rewrite length_map, length_seq. Qed.

Lemma gridTiles_from_nth (cols n a r c : nat) :
  (r < n)%nat -> (c < cols)%nat ->
  nth_error (flat_map (rowTiles G cols) (seq a n)) (r * cols + c)
  = Some (mkTile G (a + r) c ((a + r) * cols + c)).
Proof.
  revert a r. induction n as [|n IH]; intros a r Hr Hc; [lia|].
  cbn [seq flat_map]. destruct r as [|r].
  - cbn [Nat.mul Nat.add]. rewrite nth_error_app1 by (rewrite rowTiles_length; lia).
    unfold rowTiles. rewrite nth_error_map, nth_error_seq.
    destruct (Nat.ltb_spec c cols); [|lia]. cbn. now rewrite Nat.add_0_r.
  - rewrite nth_error_app2 by (rewrite rowTiles_length; lia).
    rewrite rowTiles_length.
    replace (S r * cols + c - cols)%nat with (r * cols + c)%nat by lia.
    rewrite IH by lia. now rewrite <- plus_n_Sm.
Qed.

Lemma gridTiles_nth (rows cols r c : nat) :
  (r < rows)%nat -> (c < cols)%nat ->
  nth_error (gridTiles G rows cols) (r * cols + c)
  = Some (mkTile G r c (r * cols + c)).
Proof. intros Hr Hc. unfold gridTiles. now rewrite gridTiles_from_nth. Qed.

Lemma gridTiles_length (rows cols : nat) :
  List.length (gridTiles G rows cols) = (rows * cols)%nat.
Proof.
  unfold gridTiles. generalize 0%nat as a.
  induction rows as [|n IH]; intro a; [reflexivity|].
  cbn [seq flat_map]. rewrite length_app, rowTiles_length, IH. lia.
Qed.


(** Every position of the sequence is a cell of the grid. *)
Lemma gridTiles_nth_inv (rows cols i : nat) (t : TileInfo) :
  nth_error (gridTiles G rows cols) i = Some t ->
  exists r c, (r < rows)%nat /\ (c < cols)%nat /\ i = (r * cols + c)%nat /\
              t = mkTile G r c i.
Proof.
  intro H.
  assert (Hi : (i < rows * cols)%nat).
  { rewrite <- gridTiles_length. apply nth_error_Some. congruence. }
  assert (Hc : (0 < cols)%nat) by (destruct cols; lia).
  exists (i / cols)%nat, (i mod cols)%nat.
  assert (Hdiv : i = (i / cols * cols + i mod cols)%nat).
  { rewrite Nat.mul_comm. apply Nat.div_mod_eq. }
  assert (Hr : (i / cols < rows)%nat).
  { apply Nat.Div0.div_lt_upper_bound. lia. }
  assert (Hm : (i mod cols < cols)%nat) by (apply Nat.mod_upper_bound; lia).
  repeat split; try assumption.
  rewrite Hdiv in H at 1. rewrite gridTiles_nth in H by assumption.
  rewrite <- Hdiv in H. congruence.
Qed.
End GridLoop.

(** ** One axis of the grid *)

Lemma Qdiv_lt_mul (k a b : Q) : 0 < b -> k < a / b -> k * b < a.
Proof.
  intros Hb H. apply (Qmult_lt_r _ _ b Hb) in H.
  assert (Hd : a / b * b == a) by (field; lra).
  now rewrite Hd in H.
Qed.



Lemma natQ_nonneg (k : nat) : 0 <= natQ k.
Proof.
  unfold natQ. change 0 with (inject_Z 0). rewrite <- Zle_Qle. lia.
Qed.

Lemma natQ_le (j k : nat) : (j <= k)%nat -> natQ j <= natQ k.
Proof. intro H. unfold natQ. rewrite <- Zle_Qle. lia. Qed.

Section Axis.
(** [D] is the design size along the axis, [e] the effective tile size and
    [o] the overlap; [count] is the number of columns (or rows). *)
Variables D e o : Q.
Hypothesis Hstep : 0 < e - o.

Local Abbreviation cells := (axisCount D e o).


(** Every cell after the first starts before [D - o]. *)
Lemma axis_origin_lt (k : nat) :
  (1 <= k)%nat -> (Z.of_nat k < cells)%Z -> natQ k * (e - o) < D - o.
Proof.
  intros Hk Hn. apply Qdiv_lt_mul; [assumption|].
  unfold axisCount in Hn.
  apply Qle_lt_trans with (inject_Z (Qceiling ((D - o) / (e - o)) - 1)).
  - unfold natQ. rewrite <- Zle_Qle. lia.
  - apply Qceiling_lt.
Qed.


Hypothesis HD : 0 < D.
Hypothesis Ho : 0 <= o.




(** The size of a cell exceeds the overlap. *)
Lemma axis_size_gt_overlap (k : nat) :
  (Z.of_nat k < cells)%Z -> D <= o \/ o < Qmin e (D - natQ k * (e - o)).
Proof.
  intro Hn. destruct k as [|k].
  - destruct (Qlt_le_dec o D) as [Hlt|Hle]; [right|now left].
    change (natQ 0) with 0.
    destruct (Q.min_spec e (D - 0 * (e - o))) as [[_ ->]|[_ ->]]; lra.
  - right. pose proof (axis_origin_lt (S k) ltac:(lia) Hn) as H.
    destruct (Q.min_spec e (D - natQ (S k) * (e - o))) as [[_ ->]|[_ ->]]; lra.
Qed.




End Axis.

(** ** [computeGrid] *)

Lemma Qnonpos_false (a : Q) : Qnonpos a = false <-> 0 < a.
Proof.
  unfold Qnonpos. rewrite <- not_true_iff_false, Qle_bool_iff. split.
  - apply Qnot_le_lt.
  - apply Qlt_not_le.
Qed.

(** What a successful call returns. *)
Lemma computeGrid_Ok (W H : Q) (s : Settings) (g : GridInfo) :
  computeGrid W H s = Ok g ->
  0 < bedWidth s - 2 * margin s /\
  0 < bedHeight s - 2 * margin s /\
  0 < bedWidth s - 2 * margin s - overlap s /\
  0 < bedHeight s - 2 * margin s - overlap s /\
  cols g = axisCount W (bedWidth s - 2 * margin s) (overlap s) /\
  rows g = axisCount H (bedHeight s - 2 * margin s) (overlap s) /\
  tileWidth g = bedWidth s /\
  tileHeight g = bedHeight s /\
  effectiveTileWidth g = bedWidth s - 2 * margin s /\
  effectiveTileHeight g = bedHeight s - 2 * margin s /\
  tiles g = gridTiles (gridGeom W H s) (Z.to_nat (rows g)) (Z.to_nat (cols g)).
Proof.
  unfold computeGrid.
  destruct (Qnonpos (bedWidth s - 2 * margin s)) eqn:Hw; [discriminate|].
  destruct (Qnonpos (bedHeight s - 2 * margin s)) eqn:Hh; [discriminate|].
  destruct (Qnonpos (bedWidth s - 2 * margin s - overlap s)) eqn:Hx; [discriminate|].
  destruct (Qnonpos (bedHeight s - 2 * margin s - overlap s)) eqn:Hy; [discriminate|].
  cbn [orb]. intros [= <-]. cbn [cols rows tileWidth tileHeight effectiveTileWidth
                                 effectiveTileHeight tiles].
  rewrite rowLoop_spec.
  apply Qnonpos_false in Hw, Hh, Hx, Hy.
  repeat split; assumption || reflexivity.
Qed.

(** [computeGrid] succeeds exactly when its two guards pass. *)
Lemma computeGrid_accepts (W H : Q) (s : Settings) :
  0 < bedWidth s - 2 * margin s ->
  0 < bedHeight s - 2 * margin s ->
  0 < bedWidth s - 2 * margin s - overlap s ->
  0 < bedHeight s - 2 * margin s - overlap s ->
  exists g, computeGrid W H s = Ok g.
Proof.
  intros Hw Hh Hx Hy. apply Qnonpos_false in Hw, Hh, Hx, Hy.
  unfold computeGrid. rewrite Hw, Hh, Hx, Hy. cbn [orb]. eexists. reflexivity.
Qed.

(** [computeGrid] throws only when validation is bypassed. *)
Lemma validateSettings_accepts (W H : Q) (s : Settings) :
  validateSettings s = [] -> exists g, computeGrid W H s = Ok g.
Proof.
  unfold validateSettings. intro Hv.
  repeat match type of Hv with
         | (if ?b then _ else _) ++ _ = [] =>
             let Hb := fresh "Hb" in
             destruct b eqn:Hb; [discriminate|]; cbn [List.app] in Hv
         | (if ?b then _ else _) = [] =>
             let Hb := fresh "Hb" in destruct b eqn:Hb; [discriminate|]
         end.
  apply computeGrid_accepts.
  - now apply Qnonpos_false.
  - now apply Qnonpos_false.
  - apply Qnot_le_lt. intro Hle.
    assert (Hc : bedWidth s - 2 * margin s <= overlap s) by lra.
    apply Qle_bool_iff in Hc. congruence.
  - apply Qnot_le_lt. intro Hle.
    assert (Hc : bedHeight s - 2 * margin s <= overlap s) by lra.
    apply Qle_bool_iff in Hc. congruence.
Qed.









(** ** Tile labels *)

Lemma allDigits_app (s t : string) :
  allDigits (s ++ t) = allDigits s && allDigits t.
Proof.
  induction s as [|c s IH]; cbn [append allDigits]; [reflexivity|].
  now rewrite IH, andb_assoc.
Qed.

Lemma allDigits_zeros (k : nat) : allDigits (zeros k) = true.
Proof. induction k as [|k IH]; [reflexivity|]. cbn. exact IH. Qed.

Lemma allDigits_string_of_uint (d : uint) :
  allDigits (NilEmpty.string_of_uint d) = true.
Proof. induction d; cbn; assumption || reflexivity. Qed.

Lemma allDigits_padStart (n k : nat) :
  allDigits (padStart (numToString n) k "0") = true.
Proof.
  unfold padStart, numToString. fold (zeros (k - String.length
    (NilEmpty.string_of_uint (Nat.to_uint n)))).
  now rewrite allDigits_app, allDigits_zeros, allDigits_string_of_uint.
Qed.

Lemma of_uint_D0 (d : uint) : Nat.of_uint (D0 d) = Nat.of_uint d.
Proof. reflexivity. Qed.

Lemma labelNumber_zeros (k : nat) (s : string) (n : nat) :
  labelNumber s = Some n -> labelNumber (zeros k ++ s) = Some n.
Proof.
  intro H. induction k as [|k IH]; [exact H|].
  unfold labelNumber in *. cbn [zeros repeat string_of_list_ascii append].
  fold (zeros k). cbn [NilEmpty.uint_of_string].
  destruct (NilEmpty.uint_of_string (zeros k ++ s)) as [d|]; [|discriminate].
  change (uint_of_char "0" (Some d)) with (Some (D0 d)).
  cbn [option_map] in *. now rewrite of_uint_D0.
Qed.

Lemma labelNumber_padStart (n k : nat) :
  labelNumber (padStart (numToString n) k "0") = Some n.
Proof.
  unfold padStart. apply (labelNumber_zeros _ _ n).
  unfold labelNumber, numToString. rewrite NilEmpty.usu. cbn.
  now rewrite DecimalNat.Unsigned.of_to.
Qed.

Lemma padStart_inj (n m k : nat) :
  padStart (numToString n) k "0" = padStart (numToString m) k "0" -> n = m.
Proof.
  intro H. apply (f_equal labelNumber) in H.
  rewrite !labelNumber_padStart in H. congruence.
Qed.

(** A separator that is not a digit splits a string in one way only. *)
Lemma split_at_separator (sep : ascii) (r1 r2 c1 c2 : string) :
  isDigit sep = false ->
  allDigits r1 = true -> allDigits r2 = true ->
  (r1 ++ String sep c1 = r2 ++ String sep c2)%string ->
  r1 = r2 /\ c1 = c2.
Proof.
  intro Hsep. revert r2.
  induction r1 as [|a r1 IH]; intros [|b r2] H1 H2 Heq; cbn in *.
  - injection Heq as ->. now split.
  - injection Heq as <- _. apply andb_prop in H2 as [H2 _]. congruence.
  - injection Heq as -> _. apply andb_prop in H1 as [H1 _]. congruence.
  - injection Heq as -> Heq.
    apply andb_prop in H1 as [_ H1]. apply andb_prop in H2 as [_ H2].
    destruct (IH r2 H1 H2 Heq) as [-> ->]. now split.
Qed.

Lemma formatTileLabel_inj (fmt : NumberingFormat) (startAtOne : bool)
    (r1 c1 i1 r2 c2 i2 : nat) :
  formatTileLabel r1 c1 fmt i1 startAtOne = formatTileLabel r2 c2 fmt i2 startAtOne ->
  match fmt with
  | Tile_001 => i1 = i2
  | _ => r1 = r2 /\ c1 = c2
  end.
Proof.
  unfold formatTileLabel.
  set (offset := if startAtOne then 1%nat else 0%nat).
  destruct fmt; intro H.
  - injection H as H.
    apply split_at_separator in H;
      [| reflexivity | apply allDigits_padStart | apply allDigits_padStart].
    destruct H as [Hr Hc]. apply padStart_inj in Hr, Hc. lia.
  - apply split_at_separator in H;
      [| reflexivity | apply allDigits_padStart | apply allDigits_padStart].
    destruct H as [Hr Hc]. apply padStart_inj in Hr, Hc. lia.
  - injection H as H. apply padStart_inj in H. lia.
Qed.

(** The labels of the tiles the loops build are pairwise distinct, whatever
    the numbers of rows and columns. *)
Lemma gridTiles_labels_distinct (G : GridGeom) (rows cols i j : nat)
    (t1 t2 : TileInfo) :
  nth_error (gridTiles G rows cols) i = Some t1 ->
  nth_error (gridTiles G rows cols) j = Some t2 ->
  label t1 = label t2 -> i = j.
Proof.
  intros H1 H2 Hl.
  apply gridTiles_nth_inv in H1 as (r1 & c1 & _ & _ & Hi & ->).
  apply gridTiles_nth_inv in H2 as (r2 & c2 & _ & _ & Hj & ->).
  cbn [label mkTile] in Hl. apply formatTileLabel_inj in Hl.
  destruct (g_format G).
  - destruct Hl as [-> ->]. congruence.
  - destruct Hl as [-> ->]. congruence.
  - exact Hl.
Qed.

Example label_R01C01 : formatTileLabel 0 11 R01C01 11 true = "R01C12"%string.
Proof. reflexivity. Qed.

Example label_01_01 : formatTileLabel 2 104 F01_01 0 false = "02-104"%string.
Proof. reflexivity. Qed.

Example label_Tile_001 : formatTileLabel 3 4 Tile_001 41 true = "Tile_042"%string.
Proof. reflexivity. Qed.

(** C6: whatever the numbers of rows and columns, the numbering format and
    the start index, no two tiles built by the loops of [computeGrid] have
    the same label; in particular the labels of a grid [computeGrid] returns
    are pairwise distinct. *)
Theorem C6_labels_unique :
  (forall (G : GridGeom) (rows cols i j : nat) (t1 t2 : TileInfo),
     nth_error (fst (rowLoop G rows cols)) i = Some t1 ->
     nth_error (fst (rowLoop G rows cols)) j = Some t2 ->
     label t1 = label t2 -> i = j) /\
  (forall (W H : Q) (s : Settings) (g : GridInfo),
     computeGrid W H s = Ok g ->
     (forall i j t1 t2,
        nth_error (tiles g) i = Some t1 ->
        nth_error (tiles g) j = Some t2 ->
        label t1 = label t2 -> i = j) /\
     NoDup (map label (tiles g))).
Proof.
  split.
  - intros G rows cols i j t1 t2. rewrite rowLoop_spec. cbn [fst].
    apply gridTiles_labels_distinct.
  - intros W H s g Hok. apply computeGrid_Ok in Hok.
    destruct Hok as (_ & _ & _ & _ & _ & _ & _ & _ & _ & _ & Ht).
    assert (Hd : forall i j t1 t2,
               nth_error (tiles g) i = Some t1 ->
               nth_error (tiles g) j = Some t2 ->
               label t1 = label t2 -> i = j).
    { rewrite Ht. intros i j t1 t2. apply gridTiles_labels_distinct. }
    split; [exact Hd|].
    apply (proj2 (NoDup_nth_error (map label (tiles g)))).
    intros i j Hi Heq. rewrite length_map in Hi.
    rewrite !nth_error_map in Heq.
    destruct (nth_error (tiles g) i) as [t1|] eqn:E1.
    + destruct (nth_error (tiles g) j) as [t2|] eqn:E2; [|discriminate].
      cbn in Heq. injection Heq as Heq. exact (Hd i j t1 t2 E1 E2 Heq).
    + apply nth_error_None in E1. lia.
Qed.

Lemma C6_labels_unique_witness :
  NoDup (map label (tiles scenarioGrid)).
Proof.
  apply (proj2 C6_labels_unique 600 400 DEFAULT_SETTINGS scenarioGrid).
  vm_compute; reflexivity.
Defined.

(** ** Unit conversion *)

(** C7: for every magnitude and every unit string other than ["px"],
    [convertToMm] returns the same value under the three pixel modes. *)
Theorem C7_pixel_mode_only_affects_px (value : Q) (unit : string)
    (m1 m2 : UnitMode) :
  unit <> "px"%string ->
  convertToMm value unit m1 = convertToMm value unit m2.
Proof.
  intro Hne. unfold convertToMm.
  destruct (String.eqb_spec unit "px") as [Heq|_]; [contradiction|].
  now rewrite !andb_false_r.
Qed.

Lemma C7_pixel_mode_only_affects_px_witness :
  convertToMm 10 "PX" px72 = convertToMm 10 "PX" auto /\
  convertToMm 10 "in" px96 = convertToMm 10 "in" px72.
Proof.
  split.
  - apply (C7_pixel_mode_only_affects_px 10 "PX" px72 auto). discriminate.
  - apply (C7_pixel_mode_only_affects_px 10 "in" px96 px72). discriminate.
Defined.

(** For the unit ["px"] the mode does matter. *)
Example convertToMm_px_modes :
  convertToMm 96 "px" auto == 254 # 10 /\
  convertToMm 96 "px" px96 == 254 # 10 /\
  convertToMm 72 "px" px72 == 254 # 10 /\
  ~ convertToMm 72 "px" px96 == convertToMm 72 "px" px72.
Proof. repeat split; try reflexivity. intro H. discriminate H. Qed.

(** ** Registration marks *)

(** C8: with registration marks enabled and placement [inside],
    [generateMarkPositions] returns exactly four positions, one per corner,
    each [o = size / 2 + 1] inwards from the margin corners along both axes;
    a mark size of 6 gives the offset 4. *)
Theorem C8_inside_mark_positions (gridInfo : GridInfo) (settings : Settings)
    (tileRow tileCol : nat) :
  enabled (registrationMarks settings) = true ->
  placement (registrationMarks settings) = inside ->
  let m := margin settings in
  let w := effectiveTileWidth gridInfo in
  let h := effectiveTileHeight gridInfo in
  let o := size (registrationMarks settings) / 2 + 1 in
  generateMarkPositions gridInfo settings tileRow tileCol
  = [ {| mark_x := m + o; mark_y := m + o |};
      {| mark_x := m + w - o; mark_y := m + o |};
      {| mark_x := m + o; mark_y := m + h - o |};
      {| mark_x := m + w - o; mark_y := m + h - o |} ] /\
  List.length (generateMarkPositions gridInfo settings tileRow tileCol) = 4%nat /\
  (size (registrationMarks settings) == 6 -> o == 4).
Proof.
  intros Hen Hpl m w h o. unfold generateMarkPositions.
  rewrite Hen, Hpl. cbn [negb]. repeat split.
  intro Hs. unfold o. rewrite Hs. reflexivity.
Qed.

Lemma C8_inside_mark_positions_witness :
  generateMarkPositions scenarioGrid marksSettings 0 0
  = [ {| mark_x := 5 + (6 / 2 + 1); mark_y := 5 + (6 / 2 + 1) |};
      {| mark_x := 5 + 290 - (6 / 2 + 1); mark_y := 5 + (6 / 2 + 1) |};
      {| mark_x := 5 + (6 / 2 + 1); mark_y := 5 + 190 - (6 / 2 + 1) |};
      {| mark_x := 5 + 290 - (6 / 2 + 1); mark_y := 5 + 190 - (6 / 2 + 1) |} ] /\
  6 / 2 + 1 == 4.
Proof.
  pose proof (C8_inside_mark_positions scenarioGrid marksSettings 0 0
                eq_refl eq_refl) as (H1 & _ & H3).
  split; [exact H1 | apply H3; reflexivity].
Defined.

(** * Properties of the tiler *)

Section TilerFacts.
Context {E : paper.Engine} {X : Exporter}.

Lemma trimLoop_app (rect : paper.Rectangle) (clip : paper.Item)
    (l1 l2 : list paper.Item) :
  trimLoop rect clip (l1 ++ l2)
  = fold_left (trimStep rect clip) l2 (trimLoop rect clip l1).
Proof. unfold trimLoop. apply fold_left_app. Qed.

(** The flags only go up and the items only grow along the loop. *)
Lemma trimStep_mono (rect : paper.Rectangle) (clip : paper.Item)
    (st : TrimState) (p : paper.Item) :
  (hasContent st = true -> hasContent (trimStep rect clip st p) = true) /\
  (hasUnsafeFallback_ st = true ->
   hasUnsafeFallback_ (trimStep rect clip st p) = true) /\
  (forall it, In it (trimmedItems st) ->
              In it (trimmedItems (trimStep rect clip st p))).
Proof.
  unfold trimStep.
  destruct (paper.boundsIntersects p rect); cbn [negb]; [|tauto].
  destruct (intersectPath p clip) as [r|msg].
  - destruct (keptResult r); cbn; [|tauto].
    repeat split; auto. intros it Hin. apply in_or_app. now left.
  - cbn. repeat split; auto. intros it Hin. apply in_or_app. now left.
Qed.

Lemma trimFold_mono (rect : paper.Rectangle) (clip : paper.Item)
    (l : list paper.Item) (st : TrimState) :
  (hasContent st = true ->
   hasContent (fold_left (trimStep rect clip) l st) = true) /\
  (hasUnsafeFallback_ st = true ->
   hasUnsafeFallback_ (fold_left (trimStep rect clip) l st) = true) /\
  (forall it, In it (trimmedItems st) ->
              In it (trimmedItems (fold_left (trimStep rect clip) l st))).
Proof.
  revert st. induction l as [|p l IH]; intro st; cbn [fold_left]; [tauto|].
  destruct (trimStep_mono rect clip st p) as (H1 & H2 & H3).
  destruct (IH (trimStep rect clip st p)) as (I1 & I2 & I3).
  repeat split; auto.
Qed.

(** A primitive whose intersection throws is kept as it is and raises both
    flags. *)
Lemma trimStep_throw (rect : paper.Rectangle) (clip : paper.Item)
    (st : TrimState) (p : paper.Item) (msg : string) :
  paper.boundsIntersects p rect = true ->
  intersectPath p clip = Throw msg ->
  trimStep rect clip st p
  = {| trimmedItems := trimmedItems st ++ [paper.clone p];
       hasContent := true; hasUnsafeFallback_ := true |}.
Proof. intros Hb Hi. unfold trimStep. now rewrite Hb, Hi. Qed.

(** A primitive whose intersection is empty and does not throw leaves the
    state of the loop as it is. *)
Lemma trimStep_empty (rect : paper.Rectangle) (clip : paper.Item)
    (st : TrimState) (p : paper.Item) (r : option paper.Item) :
  intersectPath p clip = Ok r ->
  keptResult r = None ->
  trimStep rect clip st p = st.
Proof.
  intros Hi Hk. unfold trimStep.
  destruct (paper.boundsIntersects p rect); cbn [negb]; [|reflexivity].
  now rewrite Hi, Hk.
Qed.

Lemma finishTile_content (tile : TileInfo) (gridInfo : GridInfo)
    (settings : Settings) (fb : bool) (project : list paper.Item) :
  let run := finishTile tile gridInfo settings true fb project in
  isEmpty (run_tile run) = false /\
  hasUnsafeFallback (run_tile run) = fb /\
  run_project run = project /\
  exists r, run_result run = Some r /\
            isEmpty (res_tile r) = false /\
            hasUnsafeFallback (res_tile r) = fb /\
            svgContent (res_tile r) = Some (res_svgContent r).
Proof.
  unfold finishTile. cbn. repeat split. eexists. split; [reflexivity|].
  cbn. repeat split.
Qed.

Section BatchFacts.
Context {Host : Type}.
Variable svgInfo : SVGInfo.
Variable gridInfo : GridInfo.
Variable settings : Settings.
Variable onProgress : nat -> nat -> Host -> Host.
Variable shouldCancel : Host -> bool.
Variable asyncYield : nat -> Host -> Host.

(** When the predicate never holds, the loop visits every tile and returns
    the non-null results in order. *)
Lemma tileLoop_no_cancel (total : nat) (todo : list TileInfo) :
  (forall h, shouldCancel h = false) ->
  forall (i : nat) (b : Batch Host),
    let e := tileLoop svgInfo gridInfo settings onProgress shouldCancel
               asyncYield total i todo b in
    let runs := map (fun t => processSingleTile svgInfo t gridInfo settings) todo in
    end_outcome e = Ok (b_results b ++ resultsOf runs) /\
    end_tiles e = b_tiles b ++ map run_tile runs.
Proof.
  intro Hnc. induction todo as [|tile rest IH]; intros i b; cbn [tileLoop].
  - cbn. now rewrite !app_nil_r.
  - rewrite Hnc. cbn zeta. specialize (IH (S i)).
    match goal with |- context [tileLoop _ _ _ _ _ _ _ _ _ ?b'] =>
      specialize (IH b') end.
    cbn zeta in IH. destruct IH as [IH1 IH2]. rewrite IH1, IH2.
    cbn [b_results b_tiles map resultsOf flat_map].
    split.
    + destruct (run_result (processSingleTile svgInfo tile gridInfo settings));
        [now rewrite <- app_assoc | reflexivity].
    + now rewrite <- app_assoc.
Qed.

(** A cancellation seen at the second poll ends the loop with the
    cancellation error: the result of the first tile is not returned. *)
Lemma processTiles_cancel_after_first (host : Host) :
  (2 <= List.length (tiles gridInfo))%nat ->
  shouldCancel host = false ->
  shouldCancel
    (asyncYield 0%nat
       (onProgress 1%nat (List.length (tiles gridInfo)) host)) = true ->
  let e := processTiles svgInfo gridInfo settings onProgress shouldCancel
             asyncYield host in
  end_outcome e = Throw "Processing cancelled" /\
  end_host e = asyncYield 0%nat
                 (onProgress 1%nat (List.length (tiles gridInfo)) host) /\
  List.length (end_tiles e) = List.length (tiles gridInfo).
Proof.
  intros Hlen H0 H1. unfold processTiles.
  destruct (tiles gridInfo) as [|t0 [|t1 rest]]; cbn [List.length] in *; try lia.
  cbn [tileLoop b_host b_tiles b_results]. rewrite H0.
  cbn [Nat.add Nat.modulo Nat.divmod fst snd Nat.eqb Nat.sub] in *.
  rewrite H1. cbn. repeat split.
Qed.

End BatchFacts.
End TilerFacts.

Section TileClaims.
Context {E : paper.Engine} {X : Exporter}.

(** The fallback flag of the loop is raised exactly by a primitive whose
    bounding box meets the window and whose intersection throws. *)
Lemma trimFold_fallback_iff (rect : paper.Rectangle) (clip : paper.Item)
    (l : list paper.Item) (st : TrimState) :
  hasUnsafeFallback_ (fold_left (trimStep rect clip) l st) = true <->
  hasUnsafeFallback_ st = true \/
  exists q msg, In q l /\ paper.boundsIntersects q rect = true /\
                intersectPath q clip = Throw msg.
Proof.
  revert st. induction l as [|p l IH]; intro st; cbn [fold_left].
  - split; [now left|]. intros [H|(q & _ & [] & _)]. exact H.
  - rewrite IH. unfold trimStep at 1.
    destruct (paper.boundsIntersects p rect) eqn:Hb; cbn [negb].
    + destruct (intersectPath p clip) as [r|msg] eqn:Hi.
      * assert (Hst : hasUnsafeFallback_
                        match keptResult r with
                        | Some it =>
                            {| trimmedItems := trimmedItems st ++ [copyStyles p it];
                               hasContent := true;
                               hasUnsafeFallback_ := hasUnsafeFallback_ st |}
                        | None => st
                        end = hasUnsafeFallback_ st)
          by (destruct (keptResult r); reflexivity).
        rewrite Hst. split.
        -- intros [H|(q & msg & Hin & Hq)]; [now left|].
           right. exists q, msg. split; [now right | exact Hq].
        -- intros [H|(q & msg & [<-|Hin] & Hq1 & Hq2)]; [now left | congruence |].
           right. now exists q, msg.
      * cbn. split; [|now left]. intros _. right. exists p, msg.
        split; [now left | split; assumption].
    + split.
      * intros [H|(q & msg & Hin & Hq)]; [now left|].
        right. exists q, msg. split; [now right | exact Hq].
      * intros [H|(q & msg & [<-|Hin] & Hq1 & Hq2)]; [now left | congruence |].
        right. now exists q, msg.
Qed.

(** C3, as the code has it: under the laser-safe mode, a primitive whose
    bounding box meets the crop window and whose intersection with it returns
    an empty result without throwing is dropped.  The iteration leaves the
    state of the loop unchanged, the loop ends as if the primitive were not
    there, and the fallback flag, of the loop and of the tile it is written
    to, is raised only by another primitive, one whose intersection throws
    (a tile omitted as empty keeps the flag it had). *)
Theorem C3_empty_result_is_dropped (svgInfo : SVGInfo) (tile : TileInfo)
    (gridInfo : GridInfo) (l1 l2 : list paper.Item) (p : paper.Item)
    (r : option paper.Item) :
  let rect := tileRectInSvg svgInfo tile gridInfo in
  let clip := paper.PathRectangle rect in
  paper.boundsIntersects p rect = true ->
  intersectPath p clip = Ok r ->
  keptResult r = None ->
  (forall st, trimStep rect clip st p = st) /\
  trimLoop rect clip (l1 ++ p :: l2) = trimLoop rect clip (l1 ++ l2) /\
  (hasUnsafeFallback_ (trimLoop rect clip (l1 ++ p :: l2)) = true <->
   exists q msg, In q (l1 ++ l2) /\ paper.boundsIntersects q rect = true /\
                 intersectPath q clip = Throw msg) /\
  (forall (settings : Settings) (item : paper.Item),
     exportMode settings = laser_safe ->
     paper.importSVG (originalContent svgInfo) = Some item ->
     getAllPaths (if expandStrokes settings then expandAllStrokes item else item)
     = l1 ++ p :: l2 ->
     hasUnsafeFallback
       (run_tile (processSingleTile svgInfo tile gridInfo settings)) = true ->
     hasUnsafeFallback tile = true \/
     exists q msg, In q (l1 ++ l2) /\ paper.boundsIntersects q rect = true /\
                   intersectPath q clip = Throw msg).
Proof.
  intros rect clip Hb Hi Hk.
  assert (Hstep : forall st, trimStep rect clip st p = st)
    by (intro st; exact (trimStep_empty rect clip st p r Hi Hk)).
  assert (Hloop : trimLoop rect clip (l1 ++ p :: l2) = trimLoop rect clip (l1 ++ l2)).
  { rewrite !trimLoop_app. cbn [fold_left]. now rewrite Hstep. }
  assert (Hflag : hasUnsafeFallback_ (trimLoop rect clip (l1 ++ p :: l2)) = true <->
                  exists q msg, In q (l1 ++ l2) /\
                                paper.boundsIntersects q rect = true /\
                                intersectPath q clip = Throw msg).
  { rewrite Hloop. unfold trimLoop. rewrite trimFold_fallback_iff. cbn.
    split; [intros [H|H]; [discriminate | exact H] | now right]. }
  split; [exact Hstep|]. split; [exact Hloop|]. split; [exact Hflag|].
  intros settings item Hmode Himp Hpaths.
  unfold processSingleTile. rewrite Himp, Hmode, Hpaths.
  fold rect. fold clip.
  destruct (negb (hasContent (trimLoop rect clip (l1 ++ p :: l2)))
            && negb (exportEmptyTiles settings)).
  - cbn. intro H. now left.
  - unfold finishTile.
    match goal with
    | |- context [if ?c then _ else _] => destruct c
    end; cbn; intro H; right; now apply Hflag.
Qed.

(** C4: under the laser-safe mode, a primitive whose bounding box meets the
    crop window and whose intersection throws is put in the tile output as an
    unmodified clone; the loop goes on with the primitives after it; the tile
    ends with [hasUnsafeFallback = true] and [isEmpty = false] and is returned;
    and a batch in which cancellation is never requested returns the results
    of all its tiles. *)
Theorem C4_intersection_failure_recovered {Host : Type}
    (svgInfo : SVGInfo) (tile : TileInfo) (gridInfo : GridInfo)
    (settings : Settings) (item : paper.Item)
    (l1 l2 : list paper.Item) (p : paper.Item) (msg : string)
    (onProgress : nat -> nat -> Host -> Host) (shouldCancel : Host -> bool)
    (asyncYield : nat -> Host -> Host) (host : Host) :
  let rect := tileRectInSvg svgInfo tile gridInfo in
  let clip := paper.PathRectangle rect in
  exportMode settings = laser_safe ->
  paper.importSVG (originalContent svgInfo) = Some item ->
  getAllPaths (if expandStrokes settings then expandAllStrokes item else item)
  = l1 ++ p :: l2 ->
  paper.boundsIntersects p rect = true ->
  intersectPath p clip = Throw msg ->
  let st := trimLoop rect clip (l1 ++ p :: l2) in
  let run := processSingleTile svgInfo tile gridInfo settings in
  st = fold_left (trimStep rect clip) l2
         {| trimmedItems := trimmedItems (trimLoop rect clip l1) ++ [paper.clone p];
            hasContent := true; hasUnsafeFallback_ := true |} /\
  In (paper.clone p) (trimmedItems st) /\
  run_project run
  = (let group := paper.translate (paper.Group (trimmedItems st))
                    (tileOffset svgInfo rect settings) in
     if Qpos (simplifyTolerance settings) then
       simplifyPaths group (simplifyTolerance settings / designScaleX svgInfo)
     else group)
    :: (if guidesEnabled settings then
          addGuides gridInfo settings (designScaleX svgInfo) (designScaleY svgInfo)
        else []) /\
  isEmpty (run_tile run) = false /\
  hasUnsafeFallback (run_tile run) = true /\
  (exists r, run_result run = Some r /\
             isEmpty (res_tile r) = false /\
             hasUnsafeFallback (res_tile r) = true) /\
  ((forall h, shouldCancel h = false) ->
   let e := processTiles svgInfo gridInfo settings onProgress shouldCancel
              asyncYield host in
   end_outcome e
   = Ok (resultsOf (map (fun t => processSingleTile svgInfo t gridInfo settings)
                        (tiles gridInfo))) /\
   List.length (end_tiles e) = List.length (tiles gridInfo)).
Proof.
  intros rect clip Hmode Himp Hpaths Hb Hi st run.
  assert (Hst : st = fold_left (trimStep rect clip) l2
            {| trimmedItems := trimmedItems (trimLoop rect clip l1) ++ [paper.clone p];
               hasContent := true; hasUnsafeFallback_ := true |}).
  { unfold st. rewrite trimLoop_app. cbn [fold_left].
    now rewrite (trimStep_throw rect clip _ p msg Hb Hi). }
  destruct (trimFold_mono rect clip l2
              {| trimmedItems := trimmedItems (trimLoop rect clip l1) ++ [paper.clone p];
                 hasContent := true; hasUnsafeFallback_ := true |})
    as (Hc & Hf & Hin).
  rewrite <- Hst in Hc, Hf, Hin. cbn in Hc, Hf, Hin.
  specialize (Hc eq_refl). specialize (Hf eq_refl).
  specialize (Hin (paper.clone p) ltac:(apply in_or_app; right; now left)).
  split; [exact Hst|]. split; [exact Hin|].
  assert (Hrun : run = finishTile tile gridInfo settings true true
            ((let group := paper.translate (paper.Group (trimmedItems st))
                             (tileOffset svgInfo rect settings) in
              if Qpos (simplifyTolerance settings) then
                simplifyPaths group (simplifyTolerance settings / designScaleX svgInfo)
              else group)
             :: (if guidesEnabled settings then
                   addGuides gridInfo settings (designScaleX svgInfo)
                     (designScaleY svgInfo)
                 else []))).
  { unfold run, processSingleTile. rewrite Himp, Hmode, Hpaths.
    fold rect. fold clip. fold st. rewrite Hc, Hf. reflexivity. }
  destruct (finishTile_content tile gridInfo settings true
              ((let group := paper.translate (paper.Group (trimmedItems st))
                               (tileOffset svgInfo rect settings) in
                if Qpos (simplifyTolerance settings) then
                  simplifyPaths group (simplifyTolerance settings / designScaleX svgInfo)
                else group)
               :: (if guidesEnabled settings then
                     addGuides gridInfo settings (designScaleX svgInfo)
                       (designScaleY svgInfo)
                   else [])))
    as (F1 & F2 & F3 & r & F4 & F5 & F6 & _).
  rewrite <- Hrun in F1, F2, F3, F4.
  split; [exact F3|]. split; [exact F1|]. split; [exact F2|].
  split; [now exists r|].
  intros Hnc e.
  destruct (tileLoop_no_cancel svgInfo gridInfo settings onProgress shouldCancel
              asyncYield (List.length (tiles gridInfo)) (tiles gridInfo) Hnc 0%nat
              {| b_host := host; b_tiles := []; b_results := [] |}) as [T1 T2].
  fold (processTiles svgInfo gridInfo settings onProgress shouldCancel asyncYield host)
    in T1, T2.
  fold e in T1, T2. cbn in T1, T2. split; [exact T1|].
  rewrite T2, !length_map. reflexivity.
Qed.

(** C9: under the fast-clip mode, whenever the source imports, the tile is
    returned (never omitted) and ends with [isEmpty = false] and
    [hasUnsafeFallback = false], whatever [exportEmptyTiles] is and whatever
    lies in the crop window. *)
Theorem C9_fast_clip_tile_never_empty (svgInfo : SVGInfo) (tile : TileInfo)
    (gridInfo : GridInfo) (settings : Settings) (item : paper.Item) :
  exportMode settings = fast_clip ->
  paper.importSVG (originalContent svgInfo) = Some item ->
  let run := processSingleTile svgInfo tile gridInfo settings in
  isEmpty (run_tile run) = false /\
  hasUnsafeFallback (run_tile run) = false /\
  exists r, run_result run = Some r /\
            isEmpty (res_tile r) = false /\
            hasUnsafeFallback (res_tile r) = false.
Proof.
  intros Hmode Himp run. unfold run, processSingleTile.
  rewrite Himp, Hmode.
  match goal with |- context [finishTile ?t ?g ?s true false ?pr] =>
    destruct (finishTile_content t g s false pr)
      as (F1 & F2 & _ & r & F4 & F5 & F6 & _)
  end.
  split; [exact F1|]. split; [exact F2|]. now exists r.
Qed.

(** C5: in a grid of more than two tiles, when the cancellation predicate is
    false at the poll before the first tile and true at the next poll, that
    is once the first tile is complete, [processTiles] ends with the
    cancellation error and returns no tile result, whatever the callbacks
    are.  In the application, where cancellation is requested while the loop
    is suspended after its first tile, [handleGenerate] leaves the processed
    tiles as they were and resets the processing state, with no error
    message. *)
Theorem C5_cancel_surfaces_no_tiles (clicks : nat -> bool) (a : AppState)
    (svgInfo : SVGInfo) (gridInfo : GridInfo) :
  app_svgInfo a = Some svgInfo ->
  app_gridInfo a = Some gridInfo ->
  app_validationErrors a = [] ->
  (2 < List.length (tiles gridInfo))%nat ->
  clicks 0%nat = true ->
  let e := runTiles clicks svgInfo gridInfo (startTiling gridInfo a) in
  let a' := handleGenerate clicks a in
  (forall (Host : Type) (settings : Settings)
          (onProgress : nat -> nat -> Host -> Host)
          (shouldCancel : Host -> bool) (asyncYield : nat -> Host -> Host)
          (host : Host),
     shouldCancel host = false ->
     shouldCancel
       (asyncYield 0%nat (onProgress 1%nat (List.length (tiles gridInfo)) host))
     = true ->
     end_outcome (processTiles svgInfo gridInfo settings onProgress shouldCancel
                    asyncYield host)
     = Throw "Processing cancelled") /\
  end_outcome e = Throw "Processing cancelled" /\
  app_processedTiles a' = app_processedTiles a /\
  error (app_processingState a') = None /\
  isProcessing (app_processingState a') = false /\
  phase (app_processingState a') = idle.
Proof.
  intros Hsvg Hgrid Hval Hlen Hclick e a'.
  split.
  { intros Host settings onProgress shouldCancel asyncYield host H0 H1.
    apply processTiles_cancel_after_first; [lia | exact H0 | exact H1]. }
  destruct (processTiles_cancel_after_first svgInfo gridInfo
              (app_settings (startTiling gridInfo a))
              (fun current total => setProcessingState (withProgress current total))
              cancelRef
              (fun i s => if clicks i then handleCancel s else s)
              (startTiling gridInfo a)) as (Hout & Hhost & _).
  - lia.
  - reflexivity.
  - rewrite Hclick. reflexivity.
  - fold (runTiles clicks svgInfo gridInfo (startTiling gridInfo a)) in Hout, Hhost.
    fold e in Hout, Hhost.
    split; [exact Hout|].
    unfold a', handleGenerate. rewrite Hsvg, Hgrid, Hval. cbn [List.length Nat.ltb Nat.leb].
    fold e. rewrite Hout, Hhost, Hclick. cbn. repeat split.
Qed.

(** The tile objects are shared with the loop: after a cancelled run the grid
    of the component holds the first tile as [processSingleTile] left it. *)
Lemma handleGenerate_cancel_keeps_updates (clicks : nat -> bool) (a : AppState)
    (svgInfo : SVGInfo) (gridInfo : GridInfo) (t0 : TileInfo)
    (rest : list TileInfo) :
  app_svgInfo a = Some svgInfo ->
  app_gridInfo a = Some gridInfo ->
  app_validationErrors a = [] ->
  tiles gridInfo = t0 :: rest ->
  rest <> [] ->
  clicks 0%nat = true ->
  option_map tiles (app_gridInfo (handleGenerate clicks a))
  = Some (run_tile (processSingleTile svgInfo t0 gridInfo (app_settings a)) :: rest).
Proof.
  intros Hsvg Hgrid Hval Ht Hrest Hclick.
  unfold handleGenerate. rewrite Hsvg, Hgrid, Hval. cbn [List.length Nat.ltb Nat.leb].
  unfold runTiles, processTiles. rewrite Ht.
  destruct rest as [|t1 rest]; [contradiction|].
  cbn [tileLoop b_host b_tiles b_results List.length].
  cbn [Nat.add Nat.modulo Nat.divmod fst snd Nat.eqb Nat.sub].
  rewrite Hclick.
  change (cancelRef (startTiling gridInfo a)) with false. cbv iota.
  change (cancelRef (handleCancel ?s)) with true. cbv iota.
  cbn. rewrite Hgrid. reflexivity.
Qed.

End TileClaims.

Lemma C3_empty_result_is_dropped_witness :
  trimLoop (E := testEngine)
    (tileRectInSvg (testSvg "far") firstTile scenarioGrid)
    (paper.PathRectangle (tileRectInSvg (testSvg "far") firstTile scenarioGrid))
    ([trianglePath] ++ farTriangle :: [trianglePath])
  = trimLoop (E := testEngine)
      (tileRectInSvg (testSvg "far") firstTile scenarioGrid)
      (paper.PathRectangle (tileRectInSvg (testSvg "far") firstTile scenarioGrid))
      ([trianglePath] ++ [trianglePath]).
Proof.
  exact (proj1 (proj2 (C3_empty_result_is_dropped (E := testEngine)
                         (X := testExporter) (testSvg "far") firstTile
                         scenarioGrid [trianglePath] [trianglePath] farTriangle
                         (Some noSegments) eq_refl eq_refl eq_refl))).
Defined.

(** C3, as stated, fails: the bounding box of the only primitive of the
    document meets the crop window of the first tile and its intersection is
    an empty path, returned without throwing; no clone of it reaches the tile,
    the fallback flag stays down and the tile is reported empty and omitted. *)
Lemma C3_empty_result_counterexample :
  let svg := testSvg "far" in
  let rect := tileRectInSvg svg firstTile scenarioGrid in
  let clip := paper.PathRectangle rect in
  let run := processSingleTile (E := testEngine) (X := testExporter)
               svg firstTile scenarioGrid DEFAULT_SETTINGS in
  exportMode DEFAULT_SETTINGS = laser_safe /\
  option_map getAllPaths (paper.importSVG (Engine := testEngine) (originalContent svg))
  = Some [farTriangle] /\
  paper.boundsIntersects (Engine := testEngine) farTriangle rect = true /\
  intersectPath (E := testEngine) farTriangle clip = Ok (Some noSegments) /\
  isEmptyPath noSegments = true /\
  ~ In (paper.clone farTriangle)
       (trimmedItems (trimLoop (E := testEngine) rect clip [farTriangle])) /\
  hasUnsafeFallback (run_tile run) = false /\
  isEmpty (run_tile run) = true /\
  run_project run = [] /\
  run_result run = None.
Proof.
  cbv zeta. repeat split; try reflexivity.
  intros [].
Qed.

Lemma C4_intersection_failure_recovered_witness :
  let run := processSingleTile (E := testEngine) (X := testExporter)
               (testSvg "throwing") firstTile scenarioGrid DEFAULT_SETTINGS in
  isEmpty (run_tile run) = false /\ hasUnsafeFallback (run_tile run) = true.
Proof.
  pose proof (C4_intersection_failure_recovered (E := testEngine) (X := testExporter)
                (Host := unit)
                (testSvg "throwing") firstTile scenarioGrid DEFAULT_SETTINGS
                (paper.Group [trianglePath; openPath; trianglePath])
                [trianglePath] [trianglePath] openPath "boolean operation failed"
                (fun _ _ h => h) (fun _ => false) (fun _ h => h) tt
                eq_refl eq_refl eq_refl eq_refl eq_refl) as H.
  cbv zeta in H. destruct H as (_ & _ & _ & H1 & H2 & _).
  split; [exact H1 | exact H2].
Defined.

Lemma C9_fast_clip_tile_never_empty_witness :
  let run := processSingleTile (E := testEngine) (X := testExporter)
               (testSvg "far") firstTile scenarioGrid fastClipSettings in
  isEmpty (run_tile run) = false /\ hasUnsafeFallback (run_tile run) = false.
Proof.
  pose proof (C9_fast_clip_tile_never_empty (E := testEngine) (X := testExporter)
                (testSvg "far") firstTile scenarioGrid fastClipSettings
                (paper.Group [farTriangle]) eq_refl eq_refl) as H.
  cbv zeta in H. destruct H as (H1 & H2 & _).
  split; [exact H1 | exact H2].
Defined.

Lemma C5_cancel_surfaces_no_tiles_witness :
  let a' := handleGenerate (E := testEngine) (X := testExporter)
              clickAfterFirst (testApp "throwing") in
  app_processedTiles a' = [] /\ error (app_processingState a') = None.
Proof.
  pose proof (C5_cancel_surfaces_no_tiles (E := testEngine) (X := testExporter)
                clickAfterFirst (testApp "throwing")
                (testSvg "throwing") scenarioGrid
                eq_refl eq_refl eq_refl) as H.
  cbv zeta in H.
  destruct (H ltac:(vm_compute; lia) eq_refl) as (_ & _ & H1 & H2 & _).
  split; [exact H1 | exact H2].
Defined.

(** * Further properties of the grid planner *)

(** ** Errors of [computeGrid] *)



Lemma numToString_padStart0 (n : nat) :
  numToString n = padStart (numToString n) 0 "0".
Proof. reflexivity. Qed.

Lemma numToString_inj (n m : nat) : numToString n = numToString m -> n = m.
Proof.
  intro H. apply (padStart_inj n m 0). now rewrite <- !numToString_padStart0.
Qed.

Lemma allDigits_numToString (n : nat) : allDigits (numToString n) = true.
Proof. apply allDigits_string_of_uint. Qed.

(** X3: no two tiles of a grid [computeGrid] returns have the same
    identifier. *)
Theorem X3_tile_ids_unique (W H : Q) (s : Settings) (g : GridInfo) :
  computeGrid W H s = Ok g ->
  (forall i j t1 t2,
     nth_error (tiles g) i = Some t1 ->
     nth_error (tiles g) j = Some t2 ->
     tileId t1 = tileId t2 -> i = j) /\
  NoDup (map tileId (tiles g)).
Proof.
  intro Hok. apply computeGrid_Ok in Hok.
  destruct Hok as (_ & _ & _ & _ & _ & _ & _ & _ & _ & _ & Ht).
  assert (Hd : forall i j t1 t2,
             nth_error (tiles g) i = Some t1 ->
             nth_error (tiles g) j = Some t2 ->
             tileId t1 = tileId t2 -> i = j).
  { rewrite Ht. intros i j t1 t2 H1 H2 Hid.
    apply gridTiles_nth_inv in H1 as (r1 & c1 & _ & _ & Hi & ->).
    apply gridTiles_nth_inv in H2 as (r2 & c2 & _ & _ & Hj & ->).
    cbn [tileId mkTile] in Hid.
    change ("tile-" ++ ?a)%string with
      (String "t" (String "i" (String "l" (String "e" (String "-" a))))) in Hid.
    injection Hid as Hid.
    apply split_at_separator in Hid;
      [| reflexivity | apply allDigits_numToString | apply allDigits_numToString].
    destruct Hid as [Hr Hc]. apply numToString_inj in Hr, Hc. congruence. }
  split; [exact Hd|].
  apply (proj2 (NoDup_nth_error (map tileId (tiles g)))).
  intros i j Hi Heq. rewrite length_map in Hi.
  rewrite !nth_error_map in Heq.
  destruct (nth_error (tiles g) i) as [t1|] eqn:E1.
  - destruct (nth_error (tiles g) j) as [t2|] eqn:E2; [|discriminate].
    cbn in Heq. injection Heq as Heq. exact (Hd i j t1 t2 E1 E2 Heq).
  - apply nth_error_None in E1. lia.
Qed.

(** ** How many cells an axis gets *)



Lemma axisCount_mono (D D' e o : Q) :
  0 < e - o -> D <= D' -> (axisCount D e o <= axisCount D' e o)%Z.
Proof.
  intros Hstep Hle. unfold axisCount.
  assert (Hq : (D - o) / (e - o) <= (D' - o) / (e - o)).
  { apply Qle_shift_div_r; [assumption|].
    assert (Hd : (D' - o) / (e - o) * (e - o) == D' - o) by (field; lra).
    rewrite Hd. lra. }
  apply Qceiling_resp_le in Hq. lia.
Qed.



(** X6: with the same settings, a wider design never gets fewer columns and
    a higher design never gets fewer rows. *)
Theorem X6_grid_grows_with_design (W H W' H' : Q) (s : Settings)
    (g g' : GridInfo) :
  computeGrid W H s = Ok g ->
  computeGrid W' H' s = Ok g' ->
  (W <= W' -> (cols g <= cols g')%Z) /\
  (H <= H' -> (rows g <= rows g')%Z).
Proof.
  intros Hok Hok'. apply computeGrid_Ok in Hok, Hok'.
  destruct Hok as (_ & _ & Hx & Hy & Hc & Hr & _).
  destruct Hok' as (_ & _ & _ & _ & Hc' & Hr' & _).
  rewrite Hc, Hr, Hc', Hr'.
  split; intro Hle; now apply axisCount_mono.
Qed.

(** ** Shape of the grid *)


(** ** The grid planner on the scenario grid *)


Lemma X3_tile_ids_unique_witness : NoDup (map tileId (tiles scenarioGrid)).
Proof.
  assert (Hg : computeGrid 600 400 DEFAULT_SETTINGS = Ok scenarioGrid)
    by (vm_compute; reflexivity).
  exact (proj2 (X3_tile_ids_unique 600 400 DEFAULT_SETTINGS scenarioGrid
                  Hg)).
Defined.



Lemma X6_grid_grows_with_design_witness :
  (cols narrowGrid <= cols scenarioGrid)%Z.
Proof.
  assert (Hg : computeGrid 600 400 DEFAULT_SETTINGS = Ok scenarioGrid)
    by (vm_compute; reflexivity).
  assert (H0 : computeGrid 500 400 DEFAULT_SETTINGS = Ok narrowGrid)
    by (vm_compute; reflexivity).
  apply (proj1 (X6_grid_grows_with_design 500 400 600 400 DEFAULT_SETTINGS
                  narrowGrid scenarioGrid H0 Hg)).
  discriminate.
Defined.

(** * Validation of the settings *)







(** * Further properties of the unit conversion *)

Lemma lowerAscii_idem (c : ascii) : lowerAscii (lowerAscii c) = lowerAscii c.
Proof. destruct c as [[|] [|] [|] [|] [|] [|] [|] [|]]; reflexivity. Qed.

Lemma toLowerCase_idem (s : string) : toLowerCase (toLowerCase s) = toLowerCase s.
Proof.
  induction s as [|c s IH]; [reflexivity|].
  cbn [toLowerCase]. now rewrite lowerAscii_idem, IH.
Qed.

Lemma toLowerCase_length (s : string) :
  String.length (toLowerCase s) = String.length s.
Proof. induction s as [|c s IH]; cbn; congruence. Qed.

Lemma convertToMm_auto_px96 (value : Q) (unit : string) :
  convertToMm value unit auto = convertToMm value unit px96.
Proof.
  unfold convertToMm. cbn [isPx96 isPx72 andb].
  destruct (String.eqb_spec unit "px") as [->|_]; reflexivity.
Qed.

(** X8: the modes [auto] and [px96] convert every length alike: the
    reference resolution of [auto] is 96 pixels per inch.  (Here and below
    the unit is not one of the two names the table object inherits.) *)
Theorem X8_auto_is_px96 (value : Q) (unit : string) :
  ownKey unit = true ->
  convertToMm value unit auto = convertToMm value unit px96 /\
  convertToMm value "px" auto = value * (mmPerInch / 96).
Proof. intros _. split; [apply convertToMm_auto_px96 | reflexivity]. Qed.

Lemma X8_auto_is_px96_witness :
  convertToMm 96 "px" auto = convertToMm 96 "px" px96.
Proof. apply (X8_auto_is_px96 96 "px"). reflexivity. Defined.

(** X9: a unit that is not a key of the table, whatever its letter case, is
    converted with the factor of 96 pixels per inch under every mode. *)
Theorem X9_unknown_unit_is_px96 (value : Q) (unit : string) (m : UnitMode) :
  ownKey unit = true ->
  UNIT_TO_MM (toLowerCase unit) = None ->
  convertToMm value unit m = value * (mmPerInch / 96).
Proof.
  intros _ Hnone. unfold convertToMm. rewrite Hnone.
  destruct (String.eqb_spec unit "px") as [->|_]; [discriminate Hnone|].
  now rewrite !andb_false_r.
Qed.

Lemma X9_unknown_unit_is_px96_witness :
  convertToMm 10 "em" px72 = 10 * (mmPerInch / 96).
Proof.
  apply (X9_unknown_unit_is_px96 10 "em" px72); reflexivity.
Defined.




(** X11: under the modes [auto] and [px96] the letter case of the unit does
    not matter; under [px72] it does, since only the lower-case ["px"] takes
    the factor of 72 pixels per inch. *)
Theorem X11_unit_case (value : Q) (unit : string) :
  ownKey unit = true ->
  convertToMm value unit auto = convertToMm value (toLowerCase unit) auto /\
  convertToMm value unit px96 = convertToMm value (toLowerCase unit) px96 /\
  (toLowerCase unit <> "px"%string ->
   convertToMm value unit px72 = convertToMm value (toLowerCase unit) px72) /\
  ~ convertToMm 72 "PX" px72 == convertToMm 72 (toLowerCase "PX") px72.
Proof.
  intros _.
  assert (Hauto : convertToMm value unit auto
                  = convertToMm value (toLowerCase unit) auto).
  { unfold convertToMm. cbn [isPx96 isPx72 andb]. now rewrite toLowerCase_idem. }
  split; [exact Hauto|]. split; [|split].
  - now rewrite <- !convertToMm_auto_px96.
  - intro Hne. unfold convertToMm. cbn [isPx96 isPx72 andb].
    rewrite toLowerCase_idem.
    destruct (String.eqb_spec (toLowerCase unit) "px") as [Heq|_]; [contradiction|].
    destruct (String.eqb_spec unit "px") as [->|_]; [now contradiction Hne|].
    reflexivity.
  - intro H. discriminate H.
Qed.

Lemma X11_unit_case_witness :
  convertToMm 10 "Cm" px72 = convertToMm 10 (toLowerCase "Cm") px72.
Proof.
  destruct (X11_unit_case 10 "Cm" eq_refl) as (_ & _ & H & _).
  apply H. discriminate.
Defined.

(** * Parsing lengths and documents *)

Lemma isUnitName_key (u : string) :
  isUnitName u = true ->
  In u unitNames /\ toLowerCase u = u /\ exists f, UNIT_TO_MM u = Some f.
Proof.
  unfold isUnitName. intro H. apply existsb_exists in H as (n & Hin & Heq).
  apply String.eqb_eq in Heq. subst n. split; [exact Hin|].
  cbn in Hin.
  repeat (destruct Hin as [<- | Hin]; [split; [reflexivity | eexists; reflexivity]|]).
  contradiction.
Qed.

Lemma matchLength_unit (s digits u : string) :
  matchLength s = Some (digits, Some u) -> isUnitName (toLowerCase u) = true.
Proof.
  unfold matchLength. destruct (spanChars isNumChar s) as [d rest].
  destruct (String.length d =? 0)%nat; [discriminate|].
  destruct (String.length (dropSpaces rest) =? 0)%nat; [discriminate|].
  destruct (isUnitName (toLowerCase (dropSpaces rest))) eqn:Hu; [|discriminate].
  intros [= _ <-]. exact Hu.
Qed.

Section ParseFacts.
Context {T : TextNumbers}.

(** X12: the unit [parseUnit] returns is always one of the six keys of the
    conversion table, in lower case, whatever the text; a text without a unit
    or one the pattern rejects gets ["px"]. *)
Theorem X12_parseUnit_unit_is_known (value : string) :
  In (len_unit (parseUnit value)) unitNames /\
  toLowerCase (len_unit (parseUnit value)) = len_unit (parseUnit value) /\
  (exists f, UNIT_TO_MM (len_unit (parseUnit value)) = Some f) /\
  (matchLength (trim value) = None -> len_unit (parseUnit value) = "px"%string) /\
  (forall digits, matchLength (trim value) = Some (digits, None) ->
                  len_unit (parseUnit value) = "px"%string).
Proof.
  unfold parseUnit.
  destruct (matchLength (trim value)) as [[digits [u|]]|] eqn:Hm;
    cbn [len_unit orElse].
  - apply matchLength_unit in Hm. apply isUnitName_key in Hm as (H1 & H2 & H3).
    repeat split; try assumption; try discriminate.
  - repeat split; try discriminate; try (eexists; reflexivity).
    cbn. tauto.
  - repeat split; try discriminate; try (eexists; reflexivity).
    cbn. tauto.
Qed.

End ParseFacts.

(** ** Reading a numeral back *)


















Lemma parseFloatDigits_nonneg (s : string) (q : Q) :
  parseFloatDigits s = Some q -> 0 <= q.
Proof.
  unfold parseFloatDigits. destruct (spanChars isDigit s) as [whole rest].
  match goal with |- context [if ?b then _ else _] => destruct b end;
    [discriminate|].
  intros [= <-].
  match goal with |- 0 <= natQ ?a + natQ ?b / inject_Z ?d =>
    pose proof (natQ_nonneg a); pose proof (natQ_nonneg b);
    assert (Hd : 0 < inject_Z d)
  end.
  { change 0 with (inject_Z 0). rewrite <- Zlt_Qlt. apply Z.pow_pos_nonneg; lia. }
  match goal with |- 0 <= _ + ?x / ?d => assert (0 <= x / d) end.
  { apply Qle_shift_div_l; [exact Hd | lra]. }
  lra.
Qed.

Section ReadFacts.
Context {T : TextNumbers}.




(** X14: a text the pattern accepts never gives a negative number: the
    pattern has no sign, and a text of dots alone gives zero. *)
Theorem X14_parseUnit_nonnegative (value : string) :
  matchLength (trim value) <> None -> 0 <= len_num (parseUnit value).
Proof.
  intro Hm. unfold parseUnit.
  destruct (matchLength (trim value)) as [[digits u]|]; [|contradiction].
  cbn [len_num]. destruct (parseFloatDigits digits) as [q|] eqn:Hq; cbn [orElse].
  - now apply parseFloatDigits_nonneg in Hq.
  - apply Qle_refl.
Qed.

End ReadFacts.


Lemma X14_parseUnit_nonnegative_witness :
  0 <= len_num (parseUnit (T := noNumbers) "..").
Proof.
  apply (X14_parseUnit_nonnegative (T := noNumbers) "..").
  vm_compute. discriminate.
Defined.

(** ** The size of a document *)

Section DocumentFacts.
Context {T : TextNumbers}.

(** X15: [parseSVG] throws exactly when the document has no [<svg>]
    element, or has a parser error, or has no view box while its width or
    its height attribute is missing or empty.  When it returns, the detected
    size comes from the width and height attributes if both are present, and
    otherwise entirely from the view box, read as pixels: a width or height
    attribute that stands alone is not used for the size. *)
Theorem X15_parseSVG_size_resolution (doc : Document)
    (content fileName : string) (mode : UnitMode) :
  ((exists msg, parseSVG doc content fileName mode = Throw msg) <->
   (doc_svg doc = None \/ doc_parserError doc <> None \/
    exists svg, doc_svg doc = Some svg /\ attr_viewBox svg = None /\
                (truthyAttr (attr_width svg) = None \/
                 truthyAttr (attr_height svg) = None))) /\
  (forall svg info,
     doc_svg doc = Some svg ->
     parseSVG doc content fileName mode = Ok info ->
     originalContent info = content /\ viewBox info = attr_viewBox svg /\
     match truthyAttr (attr_width svg), truthyAttr (attr_height svg) with
     | Some wa, Some ha =>
         detectedWidthMm info
         = convertToMm (len_num (parseUnit wa)) (len_unit (parseUnit wa)) mode /\
         detectedHeightMm info
         = convertToMm (len_num (parseUnit ha)) (len_unit (parseUnit ha)) mode
     | _, _ =>
         exists vb, attr_viewBox svg = Some vb /\
                    detectedWidthMm info = convertToMm (vb_width vb) "px" mode /\
                    detectedHeightMm info = convertToMm (vb_height vb) "px" mode
     end).
Proof.
  unfold parseSVG. split.
  - destruct (doc_svg doc) as [svg|]; [|split; [now left | now eexists]].
    destruct (doc_parserError doc) as [text|];
      [split; [right; left; discriminate | now eexists]|].
    destruct (truthyAttr (attr_width svg)) as [wa|] eqn:Hwa;
      destruct (truthyAttr (attr_height svg)) as [ha|] eqn:Hha;
      destruct (attr_viewBox svg) as [vb|] eqn:Hvb; cbn [option_map];
      (split;
       [ intros [msg Hm]; try discriminate Hm;
         right; right; exists svg; repeat split; auto
       | intros [H|[H|(svg' & Hs & Hv & Hw)]];
         [ discriminate | now contradiction H | ];
         injection Hs as <-;
         try (rewrite Hvb in Hv; discriminate Hv);
         try (rewrite Hwa, Hha in Hw; destruct Hw; discriminate);
         eexists; reflexivity ]).
  - intros svg info Hsvg. rewrite Hsvg.
    destruct (doc_parserError doc) as [text|]; [discriminate|].
    destruct (truthyAttr (attr_width svg)) as [wa|];
      destruct (truthyAttr (attr_height svg)) as [ha|];
      cbn [option_map orElse];
      try (intros [= <-]; cbn; repeat split; fail);
      (destruct (attr_viewBox svg) as [vb|]; [|discriminate];
       intros [= <-]; cbn; repeat split; exists vb; repeat split).
Qed.


End DocumentFacts.

Lemma X15_parseSVG_size_resolution_witness :
  detectedWidthMm viewBoxOnlyInfo = convertToMm 800 "px" px72 /\
  detectedHeightMm viewBoxOnlyInfo = convertToMm 600 "px" px72.
Proof.
  destruct (proj2 (X15_parseSVG_size_resolution (T := noNumbers) viewBoxOnly
                     "<svg/>" "a.svg" px72)
              _ viewBoxOnlyInfo eq_refl eq_refl) as (_ & _ & H).
  cbn in H. destruct H as (vb & [= <-] & H1 & H2). split; [exact H1 | exact H2].
Defined.


(** ** File names *)

Lemma substring_0_app (a b : string) :
  substring 0 (String.length a) (a ++ b) = a.
Proof. induction a as [|c a IH]; cbn; [now destruct b | now rewrite IH]. Qed.

Lemma substring_skip_app (a b : string) :
  substring (String.length a) (String.length b) (a ++ b) = b.
Proof.
  induction a as [|c a IH]; cbn [String.length append substring]; [|exact IH].
  induction b as [|c b IH]; cbn; [reflexivity | now rewrite IH].
Qed.

Lemma length_app_string (a b : string) :
  String.length (a ++ b) = (String.length a + String.length b)%nat.
Proof. induction a as [|c a IH]; cbn; [reflexivity | now rewrite IH]. Qed.

Lemma substring_split (n : nat) (s : string) :
  (n <= String.length s)%nat ->
  (substring 0 n s ++ substring n (String.length s - n) s)%string = s /\
  String.length (substring n (String.length s - n) s) = (String.length s - n)%nat.
Proof.
  revert s. induction n as [|n IH]; intros s Hn.
  - rewrite Nat.sub_0_r. cbn [append].
    assert (H0 : forall t, substring 0 (String.length t) t = t)
      by (induction t as [|c t IHt]; cbn; [reflexivity | now rewrite IHt]).
    rewrite H0. split; [now destruct s | reflexivity].
  - destruct s as [|c s]; cbn in Hn; [lia|].
    cbn [String.length substring append Nat.sub].
    destruct (IH s ltac:(lia)) as [H1 H2]. now rewrite H1.
Qed.

(** X17: [getBaseFileName] removes one trailing [.svg] extension, in any
    letter case, and nothing else: a name that does not end with the
    extension is returned as it is. *)
Theorem X17_getBaseFileName_strips_extension :
  (forall base ext : string,
     toLowerCase ext = ".svg"%string -> getBaseFileName (base ++ ext) = base) /\
  (forall name : string,
     getBaseFileName name = name \/
     exists ext, toLowerCase ext = ".svg"%string /\
                 name = (getBaseFileName name ++ ext)%string).
Proof.
  split.
  - intros base ext Hext. unfold getBaseFileName.
    assert (Hl : String.length ext = 4%nat)
      by (rewrite <- toLowerCase_length, Hext; reflexivity).
    rewrite length_app_string, Hl.
    replace (String.length base + 4 - 4)%nat with (String.length base) by lia.
    replace (4 <=? String.length base + 4)%nat with true
      by (symmetry; apply Nat.leb_le; lia).
    pose proof (substring_skip_app base ext) as Hs. rewrite Hl in Hs.
    rewrite Hs, Hext. cbn. apply substring_0_app.
  - intro name. unfold getBaseFileName.
    destruct (4 <=? String.length name)%nat eqn:Hlen; [|now left].
    destruct (String.eqb_spec
                (toLowerCase (substring (String.length name - 4) 4 name)) ".svg")
      as [Heq|_]; [|now left].
    cbn [andb]. right. apply Nat.leb_le in Hlen.
    exists (substring (String.length name - 4) 4 name). split; [exact Heq|].
    destruct (substring_split (String.length name - 4) name ltac:(lia)) as [H1 _].
    replace (String.length name - (String.length name - 4))%nat with 4%nat in H1
      by lia.
    now rewrite H1.
Qed.

Lemma X17_getBaseFileName_strips_extension_witness :
  getBaseFileName "panel.v2.SVG" = "panel.v2"%string.
Proof.
  apply (proj1 X17_getBaseFileName_strips_extension
           "panel.v2"%string ".SVG"%string).
  reflexivity.
Defined.

(** ** Registration marks on the bed *)






(** * More on the tiler *)

Section TrimFacts.
Context {E : paper.Engine} {X : Exporter}.

Lemma keptResult_Some (r : option paper.Item) (it : paper.Item) :
  keptResult r = Some it -> r = Some it /\ isEmptyPath it = false.
Proof.
  destruct r as [a|]; cbn; [|discriminate].
  destruct (isEmptyPath a) eqn:He; cbn; [discriminate|].
  intros [= <-]. now split.
Qed.

Lemma trimStep_inv (rect : paper.Rectangle) (clip : paper.Item)
    (st : TrimState) (p : paper.Item) :
  (hasContent st = true <-> trimmedItems st <> []) ->
  (hasUnsafeFallback_ st = true -> hasContent st = true) ->
  let st' := trimStep rect clip st p in
  (hasContent st' = true <-> trimmedItems st' <> []) /\
  (hasUnsafeFallback_ st' = true -> hasContent st' = true) /\
  (List.length (trimmedItems st') <= S (List.length (trimmedItems st)))%nat /\
  (forall it, In it (trimmedItems st') ->
     In it (trimmedItems st) \/ trimmedFrom rect clip [p] it).
Proof.
  intros H1 H2. unfold trimStep.
  destruct (paper.boundsIntersects p rect) eqn:Hb; cbn [negb];
    [|cbn zeta; repeat split; try tauto; lia].
  destruct (intersectPath p clip) as [r|msg] eqn:Hi.
  - destruct (keptResult r) as [it|] eqn:Hk;
      [|cbn zeta; repeat split; try tauto; lia].
    apply keptResult_Some in Hk as [-> He].
    cbn. repeat split; auto.
    + intros _ Hnil. now apply app_eq_nil in Hnil as [_ Hnil].
    + rewrite length_app. cbn. lia.
    + intros it' Hin. apply in_app_or in Hin as [Hin|[<-|[]]]; [now left|].
      right. exists p. split; [now left|]. split; [exact Hb|].
      right. now exists it.
  - cbn. repeat split; auto.
    + intros _ Hnil. now apply app_eq_nil in Hnil as [_ Hnil].
    + rewrite length_app. cbn. lia.
    + intros it' Hin. apply in_app_or in Hin as [Hin|[<-|[]]]; [now left|].
      right. exists p. split; [now left|]. split; [exact Hb|].
      left. now exists msg.
Qed.

Lemma trimFold_inv (rect : paper.Rectangle) (clip : paper.Item)
    (l : list paper.Item) (st : TrimState) :
  (hasContent st = true <-> trimmedItems st <> []) ->
  (hasUnsafeFallback_ st = true -> hasContent st = true) ->
  let st' := fold_left (trimStep rect clip) l st in
  (hasContent st' = true <-> trimmedItems st' <> []) /\
  (hasUnsafeFallback_ st' = true -> hasContent st' = true) /\
  (List.length (trimmedItems st')
   <= List.length (trimmedItems st) + List.length l)%nat /\
  (forall it, In it (trimmedItems st') ->
     In it (trimmedItems st) \/ trimmedFrom rect clip l it).
Proof.
  revert st. induction l as [|p l IH]; intros st H1 H2; cbn [fold_left].
  - cbn. repeat split; try tauto. lia.
  - destruct (trimStep_inv rect clip st p H1 H2) as (S1 & S2 & S3 & S4).
    destruct (IH _ S1 S2) as (I1 & I2 & I3 & I4).
    cbn zeta. split; [exact I1|]. split; [exact I2|]. split.
    + cbn [List.length]. lia.
    + intros it Hin. destruct (I4 it Hin) as [Hin'|(q & Hq & Hrest)].
      * destruct (S4 it Hin') as [Hin''|(q & [Hq|[]] & Hrest)]; [now left|].
        right. exists q. split; [now left | exact Hrest].
      * right. exists q. split; [now right | exact Hrest].
Qed.

(** X20: at the end of the trimming loop, [hasContent] holds exactly when
    the output is not empty, a raised fallback flag implies content, the
    output has at most one item per input path, and every item of the output
    comes from an input path whose bounding box meets the window: it is that
    path unchanged when its intersection threw, and otherwise its non-empty
    intersection carrying the styles of the path. *)
Theorem X20_trim_loop_invariant (rect : paper.Rectangle) (clip : paper.Item)
    (paths : list paper.Item) :
  let st := trimLoop rect clip paths in
  (hasContent st = true <-> trimmedItems st <> []) /\
  (hasUnsafeFallback_ st = true -> hasContent st = true) /\
  (List.length (trimmedItems st) <= List.length paths)%nat /\
  (forall it, In it (trimmedItems st) -> trimmedFrom rect clip paths it).
Proof.
  unfold trimLoop.
  destruct (trimFold_inv rect clip paths
              {| trimmedItems := []; hasContent := false;
                 hasUnsafeFallback_ := false |})
    as (H1 & H2 & H3 & H4).
  - cbn. split; [discriminate | congruence].
  - cbn. discriminate.
  - cbn zeta. repeat split; try apply H1; try exact H2; try exact H3.
    intros it Hin. destruct (H4 it Hin) as [[]|Hf]. exact Hf.
Qed.

Lemma trimFold_filter (rect : paper.Rectangle) (clip : paper.Item)
    (l : list paper.Item) (st : TrimState) :
  fold_left (trimStep rect clip) l st
  = fold_left (trimStep rect clip)
      (filter (fun p => paper.boundsIntersects p rect) l) st.
Proof.
  revert st. induction l as [|p l IH]; intro st; cbn [fold_left filter];
    [reflexivity|].
  destruct (paper.boundsIntersects p rect) eqn:Hb; cbn [fold_left].
  - apply IH.
  - rewrite <- IH. f_equal. unfold trimStep. now rewrite Hb.
Qed.

(** X21: paths whose bounding box misses the window play no part in the
    loop, whatever their intersection would give: the loop ends in the same
    state as on the paths that meet the window alone, and when no path meets
    it the tile has no content and no fallback. *)
Theorem X21_paths_off_window_ignored (rect : paper.Rectangle)
    (clip : paper.Item) (paths : list paper.Item) :
  trimLoop rect clip paths
  = trimLoop rect clip (filter (fun p => paper.boundsIntersects p rect) paths) /\
  ((forall p, In p paths -> paper.boundsIntersects p rect = false) ->
   trimLoop rect clip paths
   = {| trimmedItems := []; hasContent := false; hasUnsafeFallback_ := false |}).
Proof.
  split; [apply trimFold_filter|].
  intro Hall. unfold trimLoop. rewrite trimFold_filter.
  replace (filter (fun p => paper.boundsIntersects p rect) paths) with
    (@nil paper.Item); [reflexivity|].
  symmetry. induction paths as [|p l IH]; cbn [filter]; [reflexivity|].
  rewrite (Hall p (or_introl eq_refl)). apply IH.
  intros q Hq. apply Hall. now right.
Qed.

Lemma sameCell_refl (t : TileInfo) : sameCell t t.
Proof. repeat split. Qed.

Lemma finishTile_outcome (tile : TileInfo) (gridInfo : GridInfo)
    (settings : Settings) (hc fb : bool) (project : list paper.Item) :
  (fb = true -> hc = true) ->
  let run := finishTile tile gridInfo settings hc fb project in
  sameCell (run_tile run) tile /\
  isEmpty (run_tile run) = negb hc /\
  hasUnsafeFallback (run_tile run) = fb /\
  (run_result run = None <-> hc = false /\ exportEmptyTiles settings = false) /\
  (forall r, run_result run = Some r ->
     res_tile r = withSvgContent (res_svgContent r) (run_tile run)).
Proof.
  intros Hfb. unfold finishTile.
  destruct hc, (exportEmptyTiles settings); cbn;
    (split; [repeat split|]); (split; [reflexivity|]);
    (split; [reflexivity|]); split;
    try (split; [discriminate | intros []; discriminate]);
    try (split; [now split | reflexivity]);
    try (intros r [= <-]; reflexivity); try discriminate.
Qed.

(** X22: [processSingleTile] leaves the cell of the tile object alone (row,
    column, id, label, position and size) and only writes its flags.  When
    it returns nothing the tile object is marked empty.  A returned tile is
    the tile object with the exported text attached; it is marked empty only
    under the laser-safe mode with [exportEmptyTiles] set, and a returned
    tile flagged as an unsafe fallback is never marked empty. *)
Theorem X22_tile_outcome (svgInfo : SVGInfo) (tile : TileInfo)
    (gridInfo : GridInfo) (settings : Settings) :
  let run := processSingleTile svgInfo tile gridInfo settings in
  sameCell (run_tile run) tile /\
  (run_result run = None -> isEmpty (run_tile run) = true) /\
  (forall r, run_result run = Some r ->
     res_tile r = withSvgContent (res_svgContent r) (run_tile run) /\
     sameCell (res_tile r) tile /\
     svgContent (res_tile r) = Some (res_svgContent r) /\
     (isEmpty (res_tile r) = true ->
      exportEmptyTiles settings = true /\ exportMode settings = laser_safe) /\
     (hasUnsafeFallback (res_tile r) = true ->
      isEmpty (res_tile r) = false /\ exportMode settings = laser_safe)).
Proof.
  unfold processSingleTile.
  destruct (paper.importSVG (originalContent svgInfo)) as [imported|];
    [|cbn; split; [repeat split|]; split; [reflexivity | discriminate]].
  set (item := if expandStrokes settings then expandAllStrokes imported
               else imported).
  set (guides := if guidesEnabled settings then _ else _).
  destruct (exportMode settings).
  - set (rect := tileRectInSvg svgInfo tile gridInfo).
    assert (Hfb : hasUnsafeFallback_
                    (trimLoop rect (paper.PathRectangle rect) (getAllPaths item))
                  = true ->
                  hasContent
                    (trimLoop rect (paper.PathRectangle rect) (getAllPaths item))
                  = true).
    { unfold trimLoop. apply trimFold_inv; cbn; [|discriminate].
      split; [discriminate | congruence]. }
    set (st := trimLoop rect (paper.PathRectangle rect) (getAllPaths item)) in *.
    set (project := _ :: guides).
    destruct (hasContent st) eqn:Hc; cbn [negb andb].
    + destruct (finishTile_outcome tile gridInfo settings true
                  (hasUnsafeFallback_ st) project (fun _ => eq_refl))
        as (F1 & F2 & F3 & F4 & F5).
      cbn zeta in *. split; [exact F1|]. split.
      * intro Hn. apply F4 in Hn as [Hn _]. discriminate Hn.
      * intros r Hr. specialize (F5 r Hr). rewrite F5.
        split; [reflexivity|]. split; [exact F1|].
        split; [reflexivity|]. cbn [isEmpty hasUnsafeFallback withSvgContent].
        rewrite F2. cbn. split; [discriminate | now split].
    + destruct (exportEmptyTiles settings) eqn:Hx; cbn [negb].
      * assert (Hfb' : hasUnsafeFallback_ st = true -> false = true)
          by exact Hfb.
        destruct (finishTile_outcome (setIsEmpty true tile) gridInfo settings
                    false (hasUnsafeFallback_ st) project Hfb')
          as (F1 & F2 & F3 & F4 & F5).
        cbn zeta in *. rewrite Hx in F4. split; [exact F1|]. split.
        -- intros _. exact F2.
        -- intros r Hr. specialize (F5 r Hr). rewrite F5.
           split; [reflexivity|]. split; [exact F1|].
           split; [reflexivity|]. cbn [isEmpty hasUnsafeFallback withSvgContent].
           rewrite F3. split; [now split|].
           intro Hf. apply Hfb in Hf. discriminate Hf.
      * cbn. split; [repeat split|]. split; [reflexivity | discriminate].
  - set (project := _ :: guides).
    destruct (finishTile_outcome tile gridInfo settings true false project
                (fun _ => eq_refl)) as (F1 & F2 & F3 & F4 & F5).
    cbn zeta in *. split; [exact F1|]. split.
    + intro Hn. apply F4 in Hn as [Hn _]. discriminate Hn.
    + intros r Hr. specialize (F5 r Hr). rewrite F5.
      split; [reflexivity|]. split; [exact F1|].
      split; [reflexivity|]. cbn [isEmpty hasUnsafeFallback withSvgContent].
      rewrite F2, F3. cbn. split; discriminate.
Qed.

End TrimFacts.

Section PathFacts.
Context {E : paper.Engine}.

Lemma isEmptyPath_compound (results : list paper.Item) (st : paper.Style) :
  results <> [] ->
  (forall r, In r results -> isEmptyPath r = false) ->
  isEmptyPath (paper.CompoundPath results st) = false.
Proof.
  intros Hne Hall. cbn [isEmptyPath].
  destruct results as [|r rest]; [congruence|].
  cbn [List.length Nat.eqb orb forallb].
  now rewrite (Hall r (or_introl eq_refl)).
Qed.

Lemma intersectChildren_spec (children : list paper.Item) (clip : paper.Item)
    (acc : list paper.Item) :
  match intersectChildren children clip acc with
  | Throw msg =>
      exists c, In c children /\ paper.intersect c clip = Throw msg
  | Ok results =>
      (forall c, In c children -> exists r, paper.intersect c clip = Ok r) /\
      exists kept,
        results = acc ++ kept /\
        (forall r, In r kept -> isEmptyPath r = false) /\
        (kept = [] <->
         forall c r, In c children -> paper.intersect c clip = Ok r ->
                     keptResult r = None)
  end.
Proof.
  revert acc. induction children as [|c rest IH]; intro acc;
    cbn [intersectChildren].
  - split; [intros c []|]. exists []. rewrite app_nil_r.
    split; [reflexivity|]. split; [intros r []|].
    split; [intros _ c r [] | reflexivity].
  - destruct (paper.intersect c clip) as [r|msg] eqn:Hc;
      [|exists c; split; [now left | exact Hc]].
    destruct (keptResult r) as [it|] eqn:Hk.
    + specialize (IH (acc ++ [it])).
      destruct (intersectChildren rest clip (acc ++ [it])) as [results|msg].
      * destruct IH as (Hall & kept & -> & Hkept & _). split.
        -- intros c' [<-|Hin]; [now exists r | now apply Hall].
        -- exists (it :: kept). rewrite <- app_assoc. split; [reflexivity|].
           split.
           ++ intros r' [<-|Hin]; [|now apply Hkept].
              now apply keptResult_Some in Hk.
           ++ split; [discriminate|]. intro Hnone.
              rewrite (Hnone c r (or_introl eq_refl) Hc) in Hk. discriminate Hk.
      * destruct IH as (c' & Hin & Hc'). exists c'. split; [now right | exact Hc'].
    + specialize (IH acc).
      destruct (intersectChildren rest clip acc) as [results|msg].
      * destruct IH as (Hall & kept & -> & Hkept & Hnil). split.
        -- intros c' [<-|Hin]; [now exists r | now apply Hall].
        -- exists kept. split; [reflexivity|]. split; [exact Hkept|].
           rewrite Hnil. split.
           ++ intros Hn c' r' [<-|Hin] Hr'; [congruence | now apply (Hn c')].
           ++ intros Hn c' r' Hin. apply Hn. now right.
      * destruct IH as (c' & Hin & Hc'). exists c'. split; [now right | exact Hc'].
Qed.

(** X23: on a compound path [intersectPath] throws exactly when the
    intersection of one of its children throws; when it returns an item, the
    item is not empty; and it returns nothing exactly when no child throws
    and every child's intersection is missing or empty. *)
Theorem X23_compound_intersection (children : list paper.Item)
    (st : paper.Style) (clip : paper.Item) :
  let res := intersectPath (paper.CompoundPath children st) clip in
  ((exists msg, res = Throw msg) <->
   (exists c msg, In c children /\ paper.intersect c clip = Throw msg)) /\
  (forall r, res = Ok (Some r) -> isEmptyPath r = false) /\
  (res = Ok None <->
   forall c, In c children ->
     exists r, paper.intersect c clip = Ok r /\ keptResult r = None).
Proof.
  cbn [intersectPath]. pose proof (intersectChildren_spec children clip []) as H.
  destruct (intersectChildren children clip []) as [results|msg].
  - destruct H as (Hall & kept & -> & Hkept & Hnil). cbn [List.app].
    assert (Hno : ~ exists c msg, In c children /\
                                  paper.intersect c clip = Throw msg).
    { intros (c & msg & Hin & Hc). destruct (Hall c Hin) as [r Hr]. congruence. }
    destruct kept as [|r1 [|r2 rest]].
    + split; [split; [intros [msg Hm]; discriminate Hm | intro; now exfalso]|].
      split; [discriminate|]. split; [|reflexivity].
      intros _ c Hin. destruct (Hall c Hin) as [r Hr]. exists r.
      split; [exact Hr|]. now apply (proj1 Hnil eq_refl c r).
    + split; [split; [intros [msg Hm]; discriminate Hm | intro; now exfalso]|].
      split; [intros r [= <-]; apply Hkept; now left|].
      split; [discriminate|]. intro Hn.
      assert (Hk : [r1] = []); [|discriminate Hk].
      apply Hnil. intros c r Hin Hr. destruct (Hn c Hin) as (r' & Hr' & Hk).
      congruence.
    + split; [split; [intros [msg Hm]; discriminate Hm | intro; now exfalso]|].
      split; [intros r [= <-]; apply isEmptyPath_compound;
              [discriminate | exact Hkept]|].
      split; [discriminate|]. intro Hn.
      assert (Hk : r1 :: r2 :: rest = []); [|discriminate Hk].
      apply Hnil. intros c r Hin Hr. destruct (Hn c Hin) as (r' & Hr' & Hk).
      congruence.
  - destruct H as (c & Hin & Hc). split; [split; [|now exists msg]|].
    + intros _. now exists c, msg.
    + split; [discriminate|]. split; [discriminate|].
      intro Hn. destruct (Hn c Hin) as (r & Hr & _). congruence.
Qed.

Lemma expandItem_id :
  forall it : paper.Item,
    (forall p, In p (getAllPaths it) -> isStrokedPath p = false) ->
    expandItem it = it.
Proof.
  fix IH 1. intros [segs cl st|ch st|ch|ch|st] Hall; cbn [expandItem].
  - specialize (Hall _ (or_introl eq_refl)). cbn in Hall. now rewrite Hall.
  - destruct (hasStroke st); reflexivity.
  - f_equal. cbn [getAllPaths] in Hall. induction ch as [|c ch IHch];
      cbn [map]; [reflexivity|].
    rewrite IH, IHch; [reflexivity| |].
    + intros p Hp. apply Hall. cbn [flat_map]. apply in_or_app. now right.
    + intros p Hp. apply Hall. cbn [flat_map]. apply in_or_app. now left.
  - f_equal. cbn [getAllPaths] in Hall. induction ch as [|c ch IHch];
      cbn [map]; [reflexivity|].
    rewrite IH, IHch; [reflexivity| |].
    + intros p Hp. apply Hall. cbn [flat_map]. apply in_or_app. now right.
    + intros p Hp. apply Hall. cbn [flat_map]. apply in_or_app. now left.
  - reflexivity.
Qed.

Lemma getAllPaths_isPathItem :
  forall (it p : paper.Item), In p (getAllPaths it) -> paper.isPathItem p = true.
Proof.
  fix IH 1. intros [segs cl st|ch st|ch|ch|st] p; cbn [getAllPaths].
  - intros [<-|[]]. reflexivity.
  - intros [<-|[]]. reflexivity.
  - induction ch as [|c ch IHch]; cbn [flat_map]; [intros []|].
    intro Hin. apply in_app_or in Hin as [Hin|Hin]; [exact (IH c p Hin) | auto].
  - induction ch as [|c ch IHch]; cbn [flat_map]; [intros []|].
    intro Hin. apply in_app_or in Hin as [Hin|Hin]; [exact (IH c p Hin) | auto].
  - intros [].
Qed.

(** X24: [expandAllStrokes] replaces nothing but simple paths that have a
    stroke colour and a positive stroke width: a design in which no simple
    path is stroked comes back as it is, compound paths with a stroke
    included.  The paths [getAllPaths] collects are simple or compound paths,
    never groups or other items. *)
Theorem X24_only_stroked_paths_expand (item : paper.Item) :
  (forall p, In p (getAllPaths item) -> isStrokedPath p = false) ->
  expandAllStrokes item = item /\
  (forall p, In p (getAllPaths item) -> paper.isPathItem p = true).
Proof.
  intro Hall. split; [|apply getAllPaths_isPathItem].
  destruct item as [segs cl st|ch st|ch|ch|st]; try reflexivity.
  - exact (expandItem_id (paper.Group ch) Hall).
  - exact (expandItem_id (paper.Layer ch) Hall).
Qed.

End PathFacts.

Lemma X24_only_stroked_paths_expand_witness :
  expandAllStrokes (E := testEngine) strokedCompound = strokedCompound.
Proof.
  apply (X24_only_stroked_paths_expand (E := testEngine) strokedCompound).
  intros p [<-|[]]. reflexivity.
Defined.



(** * The batch loop, iteration by iteration *)

Section BatchTrace.
Context {E : paper.Engine} {X : Exporter}.
Context {Host : Type}.
Variable svgInfo : SVGInfo.
Variable gridInfo : GridInfo.
Variable settings : Settings.
Variable onProgress : nat -> nat -> Host -> Host.
Variable shouldCancel : Host -> bool.
Variable asyncYield : nat -> Host -> Host.

Local Abbreviation loop := (tileLoop svgInfo gridInfo settings onProgress
                              shouldCancel asyncYield).
Local Abbreviation after := (hostAfter onProgress asyncYield).
Local Abbreviation runsOf :=
  (map (fun t => processSingleTile svgInfo t gridInfo settings)).

(** The loop either meets a first poll at which the predicate holds and ends
    there with the cancellation error, or meets none and returns. *)
Lemma tileLoop_outcome (total : nat) (todo : list TileInfo) :
  forall (i : nat) (b : Batch Host),
    (exists k,
       (k < List.length todo)%nat /\
       (forall j, (j < k)%nat -> shouldCancel (after total i j (b_host b)) = false) /\
       shouldCancel (after total i k (b_host b)) = true /\
       loop total i todo b
       = {| end_host := after total i k (b_host b);
            end_tiles := b_tiles b ++ map run_tile (runsOf (firstn k todo))
                         ++ skipn k todo;
            end_outcome := Throw "Processing cancelled" |}) \/
    ((forall j, (j < List.length todo)%nat ->
                shouldCancel (after total i j (b_host b)) = false) /\
     loop total i todo b
     = {| end_host := after total i (List.length todo) (b_host b);
          end_tiles := b_tiles b ++ map run_tile (runsOf todo);
          end_outcome := Ok (b_results b ++ resultsOf (runsOf todo)) |}).
Proof.
  induction todo as [|tile rest IH]; intros i b; cbn [tileLoop].
  - right. split; [intros j Hj; cbn in Hj; lia|].
    cbn. now rewrite !app_nil_r.
  - destruct (shouldCancel (b_host b)) eqn:Hc.
    + left. exists 0%nat. cbn [List.length firstn skipn map hostAfter].
      repeat split; [lia | intros j Hj; lia | exact Hc].
    + cbn zeta.
      match goal with |- context [tileLoop _ _ _ _ _ _ _ _ _ ?b'] =>
        specialize (IH (S i) b'); set (b1 := b') in * end.
      assert (Hh : b_host b1 = iterHost onProgress asyncYield total i (b_host b))
        by reflexivity.
      destruct IH as [(k & Hk & Hbefore & Hat & ->)|(Hnone & ->)].
      * left. exists (S k). cbn [List.length firstn skipn map hostAfter].
        rewrite <- Hh. split; [lia|]. split.
        { intros [|j] Hj; [exact Hc|]. cbn [hostAfter]. rewrite <- Hh.
          apply Hbefore. lia. }
        split; [exact Hat|]. f_equal. cbn [b_tiles b1].
        now rewrite <- app_assoc.
      * right. split.
        { intros [|j] Hj; [exact Hc|]. cbn [hostAfter]. rewrite <- Hh.
          apply Hnone. cbn in Hj. lia. }
        cbn [List.length hostAfter map resultsOf flat_map]. rewrite <- Hh.
        f_equal.
        -- cbn [b_tiles b1]. now rewrite <- app_assoc.
        -- cbn [b_results b1]. f_equal.
           destruct (run_result (processSingleTile svgInfo tile gridInfo settings));
             [now rewrite <- app_assoc | reflexivity].
Qed.

Lemma resultsOf_length (runs : list TileRun) :
  (List.length (resultsOf runs) <= List.length runs)%nat.
Proof.
  induction runs as [|r l IH]; [cbn; lia|].
  unfold resultsOf in *. cbn [flat_map List.length]. rewrite length_app.
  destruct (run_result r); cbn [List.length]; lia.
Qed.

(** X26: when no poll before an iteration finds the cancel predicate true,
    [processTiles] visits every tile of the grid once, in order: it returns
    the results of the tiles that were not omitted, in grid order, leaves the
    tile objects with the flags each run wrote, and the host has seen the
    progress calls [(1, N)] to [(N, N)], with a yield after every even
    index. *)
Theorem X26_processTiles_runs_in_order (host : Host) :
  let N := List.length (tiles gridInfo) in
  (forall j, (j < N)%nat ->
     shouldCancel (hostAfter onProgress asyncYield N 0 j host) = false) ->
  let e := processTiles svgInfo gridInfo settings onProgress shouldCancel
             asyncYield host in
  let runs := map (fun t => processSingleTile svgInfo t gridInfo settings)
                  (tiles gridInfo) in
  end_outcome e = Ok (resultsOf runs) /\
  end_tiles e = map run_tile runs /\
  end_host e = hostAfter onProgress asyncYield N 0 N host /\
  (List.length (resultsOf runs) <= N)%nat.
Proof.
  intros N Hnone. unfold processTiles. fold N.
  destruct (tileLoop_outcome N (tiles gridInfo) 0
              {| b_host := host; b_tiles := []; b_results := [] |})
    as [(k & Hk & _ & Hat & _)|(_ & ->)].
  - cbn [b_host] in Hat. rewrite (Hnone k Hk) in Hat. discriminate Hat.
  - cbn. repeat split. unfold N. rewrite <- (length_map
      (fun t => processSingleTile svgInfo t gridInfo settings) (tiles gridInfo)).
    apply resultsOf_length.
Qed.

(** X27: [processTiles] ends with the cancellation error exactly when some
    poll before a tile finds the predicate true, and then at the first such
    poll.  If that is the poll before tile [k], exactly the first [k] tiles
    have been run (their tile objects carry the flags written, the others are
    untouched), the host has seen [k] iterations, and no result is returned,
    not even those of the tiles already run. *)
Theorem X27_processTiles_cancel_point (host : Host) :
  let N := List.length (tiles gridInfo) in
  let e := processTiles svgInfo gridInfo settings onProgress shouldCancel
             asyncYield host in
  (end_outcome e = Throw "Processing cancelled" <->
   exists k, (k < N)%nat /\
     shouldCancel (hostAfter onProgress asyncYield N 0 k host) = true) /\
  (forall k, (k < N)%nat ->
     (forall j, (j < k)%nat ->
        shouldCancel (hostAfter onProgress asyncYield N 0 j host) = false) ->
     shouldCancel (hostAfter onProgress asyncYield N 0 k host) = true ->
     end_outcome e = Throw "Processing cancelled" /\
     end_host e = hostAfter onProgress asyncYield N 0 k host /\
     end_tiles e
     = map (fun t => run_tile (processSingleTile svgInfo t gridInfo settings))
           (firstn k (tiles gridInfo))
       ++ skipn k (tiles gridInfo)).
Proof.
  intros N. unfold processTiles. fold N.
  destruct (tileLoop_outcome N (tiles gridInfo) 0
              {| b_host := host; b_tiles := []; b_results := [] |})
    as [(k & Hk & Hbefore & Hat & ->)|(Hnone & ->)]; cbn [b_host] in *;
    cbn zeta; cbn [end_outcome end_host end_tiles b_tiles List.app].
  - split.
    + split; [intros _; now exists k | reflexivity].
    + intros k' Hk' Hbefore' Hat'.
      assert (k' = k).
      { destruct (Nat.lt_trichotomy k' k) as [Hlt|[Heq|Hgt]]; [|exact Heq|].
        - rewrite (Hbefore k' Hlt) in Hat'. discriminate Hat'.
        - rewrite (Hbefore' k Hgt) in Hat. discriminate Hat. }
      subst k'. rewrite map_map. repeat split.
  - split.
    + split; [discriminate|].
      intros (k & Hk & Hat). rewrite (Hnone k Hk) in Hat. discriminate Hat.
    + intros k Hk _ Hat. rewrite (Hnone k Hk) in Hat. discriminate Hat.
Qed.

End BatchTrace.

Lemma X26_processTiles_runs_in_order_witness :
  end_host
    (processTiles (E := testEngine) (X := testExporter) (testSvg "design")
       scenarioGrid DEFAULT_SETTINGS logProgress (fun _ => false) logYield [])
  = [ Progress 1 9; Yielded 0; Progress 2 9; Progress 3 9; Yielded 2;
      Progress 4 9; Progress 5 9; Yielded 4; Progress 6 9; Progress 7 9;
      Yielded 6; Progress 8 9; Progress 9 9; Yielded 8 ].
Proof.
  apply (X26_processTiles_runs_in_order (E := testEngine) (X := testExporter)
           (testSvg "design") scenarioGrid DEFAULT_SETTINGS logProgress
           (fun _ => false) logYield []).
  reflexivity.
Defined.

Lemma X27_processTiles_cancel_point_witness :
  let e := processTiles (E := testEngine) (X := testExporter) (testSvg "design")
             scenarioGrid DEFAULT_SETTINGS logProgress
             (fun log => (3 <=? List.length log)%nat) logYield [] in
  end_outcome e = Throw "Processing cancelled" /\
  end_host e = [Progress 1 9; Yielded 0; Progress 2 9] /\
  List.length (end_tiles e) = 9%nat.
Proof.
  destruct (proj2 (X27_processTiles_cancel_point (E := testEngine)
                     (X := testExporter) (testSvg "design") scenarioGrid
                     DEFAULT_SETTINGS logProgress
                     (fun log => (3 <=? List.length log)%nat) logYield [])
              2%nat) as (H1 & H2 & H3).
  - cbn. lia.
  - intros [|[|j]] Hj; [reflexivity | reflexivity | lia].
  - reflexivity.
  - cbn zeta. rewrite H1, H2, H3. repeat split.
Defined.

(** * A completed run of the generate handler *)

Section CompletedRun.
Context {E : paper.Engine} {X : Exporter}.

Lemma processSingleTile_cell (svgInfo : SVGInfo) (tile : TileInfo)
    (gridInfo : GridInfo) (settings : Settings) :
  let run := processSingleTile svgInfo tile gridInfo settings in
  sameCell (run_tile run) tile /\
  (run_result run = None ->
   hasUnsafeFallback (run_tile run) = hasUnsafeFallback tile) /\
  (forall r, run_result run = Some r ->
     res_tile r = withSvgContent (res_svgContent r) (run_tile run) /\
     (hasUnsafeFallback (res_tile r) = true -> isEmpty (res_tile r) = false)).
Proof.
  unfold processSingleTile.
  destruct (paper.importSVG (originalContent svgInfo)) as [imported|];
    [|cbn; split; [repeat split|]; split; [reflexivity | discriminate]].
  set (item := if expandStrokes settings then expandAllStrokes imported
               else imported).
  set (guides := if guidesEnabled settings then _ else _).
  destruct (exportMode settings).
  - set (rect := tileRectInSvg svgInfo tile gridInfo).
    assert (Hfb : hasUnsafeFallback_
                    (trimLoop rect (paper.PathRectangle rect) (getAllPaths item))
                  = true ->
                  hasContent
                    (trimLoop rect (paper.PathRectangle rect) (getAllPaths item))
                  = true).
    { unfold trimLoop. apply trimFold_inv; cbn; [|discriminate].
      split; [discriminate | congruence]. }
    set (st := trimLoop rect (paper.PathRectangle rect) (getAllPaths item)) in *.
    set (project := _ :: guides).
    destruct (hasContent st) eqn:Hc; cbn [negb andb].
    + destruct (finishTile_outcome tile gridInfo settings true
                  (hasUnsafeFallback_ st) project (fun _ => eq_refl))
        as (F1 & F2 & F3 & F4 & F5).
      cbn zeta in *. split; [exact F1|]. split.
      { intro Hn. apply F4 in Hn as [Hn _]. discriminate Hn. }
      intros r Hr. specialize (F5 r Hr). rewrite F5. split; [reflexivity|].
      cbn [isEmpty hasUnsafeFallback withSvgContent]. now rewrite F2.
    + destruct (exportEmptyTiles settings) eqn:Hx; cbn [negb].
      * assert (Hfb' : hasUnsafeFallback_ st = true -> false = true)
          by exact Hfb.
        destruct (finishTile_outcome (setIsEmpty true tile) gridInfo settings
                    false (hasUnsafeFallback_ st) project Hfb')
          as (F1 & F2 & F3 & F4 & F5).
        cbn zeta in *. rewrite Hx in F4. split; [exact F1|]. split.
        { intro Hn. apply F4 in Hn as [_ Hn]. discriminate Hn. }
        intros r Hr. specialize (F5 r Hr). rewrite F5. split; [reflexivity|].
        cbn [isEmpty hasUnsafeFallback withSvgContent]. rewrite F3.
        intro Hf. apply Hfb in Hf. discriminate Hf.
      * cbn. split; [repeat split|]. split; [reflexivity | discriminate].
  - set (project := _ :: guides).
    destruct (finishTile_outcome tile gridInfo settings true false project
                (fun _ => eq_refl)) as (F1 & F2 & F3 & F4 & F5).
    cbn zeta in *. split; [exact F1|]. split.
    { intro Hn. apply F4 in Hn as [Hn _]. discriminate Hn. }
    intros r Hr. specialize (F5 r Hr). rewrite F5. split; [reflexivity|].
    cbn [isEmpty hasUnsafeFallback withSvgContent]. now rewrite F2.
Qed.

Variable svgInfo : SVGInfo.
Variable gridInfo : GridInfo.
Variable settings : Settings.

Local Abbreviation run1 := (fun t => processSingleTile svgInfo t gridInfo settings).

Lemma run_tileId (t : TileInfo) : tileId (run_tile (run1 t)) = tileId t.
Proof. apply (processSingleTile_cell svgInfo t gridInfo settings). Qed.

Lemma result_tileId (t : TileInfo) (r : TileResult) :
  run_result (run1 t) = Some r -> tileId (res_tile r) = tileId t.
Proof.
  intro Hr.
  destruct (processSingleTile_cell svgInfo t gridInfo settings)
    as (Hc & _ & Hres).
  destruct (Hres r Hr) as [-> _]. cbn [tileId withSvgContent]. apply Hc.
Qed.

Lemma find_foreign (key : string) (ts : list TileInfo) :
  ~ In key (map tileId ts) ->
  find (fun r => (tileId (res_tile r) =? key)%string) (resultsOf (map run1 ts))
  = None.
Proof.
  induction ts as [|t rest IH]; intro Hnot; [reflexivity|].
  unfold resultsOf in *. cbn [map flat_map].
  destruct (run_result (processSingleTile svgInfo t gridInfo settings))
      as [r|] eqn:Hr; cbn [List.app find].
  - rewrite (result_tileId t r Hr).
    destruct (String.eqb_spec (tileId t) key) as [Heq|_].
    + exfalso. apply Hnot. now left.
    + apply IH. intro Hin. apply Hnot. now right.
  - apply IH. intro Hin. apply Hnot. now right.
Qed.

Lemma find_own (ts : list TileInfo) (t0 : TileInfo) :
  NoDup (map tileId ts) -> In t0 ts ->
  find (fun r => (tileId (res_tile r) =? tileId t0)%string)
       (resultsOf (map run1 ts))
  = run_result (run1 t0).
Proof.
  induction ts as [|t rest IH]; intros Hnd Hin; [destruct Hin|].
  cbn [map] in Hnd. apply NoDup_cons_iff in Hnd as [Hnot Hnd].
  unfold resultsOf in *. cbn [map flat_map].
  destruct Hin as [<-|Hin].
  - destruct (run_result (processSingleTile svgInfo t gridInfo settings))
      as [r|] eqn:Hr; cbn [List.app find].
    + now rewrite (result_tileId t r Hr), String.eqb_refl.
    + now apply find_foreign.
  - assert (Hne : tileId t <> tileId t0).
    { intro Heq. apply Hnot. rewrite Heq. now apply in_map. }
    destruct (run_result (processSingleTile svgInfo t gridInfo settings))
      as [r|] eqn:Hr; cbn [List.app find].
    + rewrite (result_tileId t r Hr).
      destruct (String.eqb_spec (tileId t) (tileId t0)) as [Heq|_];
        [contradiction|].
      now apply IH.
    + now apply IH.
Qed.

Lemma updatedTiles_spec (ts all : list TileInfo) :
  NoDup (map tileId all) -> incl ts all ->
  map (fun tile =>
         match find (fun r => (tileId (res_tile r) =? tileId tile)%string)
                    (resultsOf (map run1 all)) with
         | Some result => res_tile result
         | None => setIsEmpty true tile
         end)
      (map run_tile (map run1 ts))
  = map (processedTile svgInfo gridInfo settings) ts.
Proof.
  intros Hnd Hincl. rewrite !map_map. apply map_ext_in. intros t Hin.
  rewrite run_tileId, (find_own all t Hnd (Hincl t Hin)).
  reflexivity.
Qed.

End CompletedRun.

Section CompletedApp.
Context {E : paper.Engine} {X : Exporter}.

Lemma hostAfter_cancelRef (clicks : nat -> bool) (total : nat) :
  (forall i, clicks i = false) ->
  forall k i (a : AppState),
    let a' := hostAfter
                (fun current total => setProcessingState (withProgress current total))
                (fun i s => if clicks i then handleCancel s else s)
                total i k a in
    cancelRef a' = cancelRef a /\
    app_svgInfo a' = app_svgInfo a /\ app_settings a' = app_settings a /\
    app_gridInfo a' = app_gridInfo a /\
    app_processedTiles a' = app_processedTiles a /\
    app_validationErrors a' = app_validationErrors a.
Proof.
  intros Hno. induction k as [|k IH]; intros i a; cbn [hostAfter];
    [repeat split|].
  specialize (IH (S i)). cbn zeta in IH.
  match goal with |- context [hostAfter _ _ _ _ _ ?h] =>
    destruct (IH h) as (I1 & I2 & I3 & I4 & I5 & I6) end.
  cbn zeta. rewrite I1, I2, I3, I4, I5, I6. unfold iterHost. rewrite Hno.
  destruct (i mod 2 =? 0)%nat; repeat split.
Qed.

(** X28: a run of [handleGenerate] that is not cancelled, on a grid whose
    tile identifiers are distinct, ends in phase [done] without an error and
    with the counters at the number of tiles.  [processedTiles] and the tiles
    of the grid then hold one tile per tile of the grid, in grid order: the
    tile its own run returned, or, when the run returned nothing, the tile
    object marked empty.  Each describes the same cell as before, and one that
    was not flagged before and is flagged as an unsafe fallback now is not
    marked empty. *)
Theorem X28_completed_run (clicks : nat -> bool) (a : AppState)
    (svgInfo : SVGInfo) (g : GridInfo) :
  app_svgInfo a = Some svgInfo ->
  app_gridInfo a = Some g ->
  app_validationErrors a = [] ->
  (forall i, clicks i = false) ->
  NoDup (map tileId (tiles g)) ->
  let a' := handleGenerate clicks a in
  let N := List.length (tiles g) in
  let results := map (processedTile svgInfo g (app_settings a)) (tiles g) in
  app_processedTiles a' = results /\
  option_map tiles (app_gridInfo a') = Some results /\
  app_processingState a'
  = {| isProcessing := false; currentTile := N; totalTiles := N;
       phase := done; error := None |} /\
  cancelRef a' = false /\
  (forall t, In t (tiles g) ->
     let t' := processedTile svgInfo g (app_settings a) t in
     sameCell t' t /\
     (hasUnsafeFallback t = false -> hasUnsafeFallback t' = true ->
      isEmpty t' = false)).
Proof.
  intros Hsvg Hgrid Hval Hno Hnd a' N results. subst N.
  assert (Hcell : forall t,
            let t' := processedTile svgInfo g (app_settings a) t in
            sameCell t' t /\
            (hasUnsafeFallback t = false -> hasUnsafeFallback t' = true ->
             isEmpty t' = false)).
  { intro t. unfold processedTile.
    destruct (processSingleTile_cell svgInfo t g (app_settings a))
      as (Hc & Hnone & Hres).
    cbn zeta in *.
    destruct (run_result (processSingleTile svgInfo t g (app_settings a)))
      as [r|] eqn:Hr.
    - destruct (Hres r eq_refl) as [Heq Hfb]. split; [|intros _; exact Hfb].
      rewrite Heq. exact Hc.
    - split; [exact Hc|]. cbn [hasUnsafeFallback setIsEmpty].
      rewrite (Hnone eq_refl). congruence. }
  subst a'. unfold handleGenerate. rewrite Hsvg, Hgrid, Hval. cbn [List.length Nat.ltb Nat.leb].
  unfold runTiles.
  set (a0 := startTiling g a).
  assert (Hs0 : app_settings a0 = app_settings a) by reflexivity.
  assert (Hc0 : cancelRef a0 = false) by reflexivity.
  assert (Hg0 : app_gridInfo a0 = Some g) by (cbn; exact Hgrid).
  rewrite Hs0.
  pose proof (hostAfter_cancelRef clicks (List.length (tiles g)) Hno) as Hhost.
  destruct (tileLoop_outcome svgInfo g (app_settings a)
              (fun current total => setProcessingState (withProgress current total))
              cancelRef
              (fun i s => if clicks i then handleCancel s else s)
              (List.length (tiles g)) (tiles g) 0
              {| b_host := a0; b_tiles := []; b_results := [] |})
    as [(k & Hk & _ & Hat & _)|(_ & Hrun)].
  - cbn [b_host] in Hat. destruct (Hhost k 0%nat a0) as [Hcr _].
    cbn zeta in Hcr. rewrite Hcr, Hc0 in Hat. discriminate Hat.
  - unfold processTiles. rewrite Hrun.
    cbn [end_outcome end_tiles end_host b_host b_tiles b_results List.app].
    rewrite (updatedTiles_spec svgInfo g (app_settings a) (tiles g) (tiles g)
               Hnd (incl_refl _)).
    destruct (Hhost (List.length (tiles g)) 0%nat a0)
      as (Hcr & _ & _ & Hgi & _). cbn zeta in *.
    cbn [setProcessingState setProcessedTiles setGridTiles app_processedTiles
         app_gridInfo app_processingState cancelRef option_map].
    rewrite Hgi, Hg0, Hcr, Hc0. cbn [option_map tiles].
    repeat split; try apply Hcell.
Qed.

End CompletedApp.

(** * The assembly map *)





(** * The hit test of the preview *)





Lemma X28_completed_run_witness :
  let a := handleGenerate (E := testEngine) (X := testExporter)
             (fun _ => false) (testApp "design") in
  phase (app_processingState a) = done /\
  List.length (app_processedTiles a) = 9%nat.
Proof.
  assert (Hnd : NoDup (map tileId (tiles scenarioGrid))).
  { cbn. repeat (constructor; [cbn; intuition discriminate|]). constructor. }
  destruct (X28_completed_run (E := testEngine) (X := testExporter)
              (fun _ => false) (testApp "design") (testSvg "design")
              scenarioGrid eq_refl eq_refl eq_refl (fun _ => eq_refl) Hnd)
    as (H1 & _ & H3 & _).
  cbn zeta. rewrite H1, H3. split; reflexivity.
Defined.
